(** * The indicator computations of [scripts/analytics.py]

    A shallow embedding of [CryptoAnalytics]: moving averages, percentage
    changes, volatility, min/max extrema and RSI over one symbol's price
    rows, and the properties of them that the specification states.

    Numbers.  The source computes on pandas/NumPy binary64 values.  Here a
    finite value is an exact real number and the IEEE special values
    (infinities, NaN) are kept, with the arithmetic NumPy gives them
    (division by zero yields an infinity or NaN, never an exception).  The
    rounding error of binary64 operations and the sign of zero are not
    modelled: every statement below is about the exact-arithmetic reading
    of the code.

    Time.  An instant is an integer number of microseconds.  The source
    reads the system clock with [datetime.now()]; the clock is modelled as
    an oracle giving the instant returned by each successive read.

    Exceptions.  The operations of the source that can raise ([iloc] on an
    empty selection, [idxmin] of nothing, [rolling] with a negative window)
    return in an error type. *)

From Stdlib Require Import Reals Lra Lia ZArith.
From stdpp Require Import gmap strings list fin_maps pretty.

Local Open Scope R_scope.

(** ** Numeric values *)

Inductive float : Type :=
  | Fin (r : R)
  | PInf
  | NInf
  | NaN.

Global Instance Rlt_decision (a b : R) : Decision (a < b) := Rlt_dec a b.
Global Instance Rle_decision (a b : R) : Decision (a <= b) := Rle_dec a b.
Global Instance Req_decision : EqDecision R := Req_dec_T.

Global Instance float_eq_dec : EqDecision float.
Proof. solve_decision. Defined.

Module Float.

(** The sign of a value, with zero counted apart; [None] for NaN. *)
Definition sign (x : float) : option comparison :=
  match x with
  | Fin r => Some (if decide (r < 0) then Lt else if decide (0 < r) then Gt else Eq)
  | PInf => Some Gt
  | NInf => Some Lt
  | NaN => None
  end.

Definition neg (x : float) : float :=
  match x with
  | Fin r => Fin (- r)
  | PInf => NInf
  | NInf => PInf
  | NaN => NaN
  end.

Definition add (x y : float) : float :=
  match x, y with
  | NaN, _ | _, NaN => NaN
  | Fin a, Fin b => Fin (a + b)
  | PInf, NInf | NInf, PInf => NaN
  | PInf, _ | _, PInf => PInf
  | NInf, _ | _, NInf => NInf
  end.

Definition sub (x y : float) : float := add x (neg y).

(** The infinity of the sign of a product or quotient of two signs. *)
Definition inf_of (s t : comparison) : float :=
  match s, t with
  | Eq, _ | _, Eq => NaN
  | Lt, Lt | Gt, Gt => PInf
  | _, _ => NInf
  end.

Definition mul (x y : float) : float :=
  match x, y with
  | Fin a, Fin b => Fin (a * b)
  | _, _ =>
      match sign x, sign y with
      | Some s, Some t => inf_of s t
      | _, _ => NaN
      end
  end.

(** [x / y] as NumPy divides: a non-zero value over zero is an infinity
    of the sign of the numerator, zero over zero is NaN. *)
Definition div (x y : float) : float :=
  match x, y with
  | NaN, _ | _, NaN => NaN
  | Fin a, Fin b =>
      if decide (b = 0) then
        (if decide (0 < a) then PInf else if decide (a < 0) then NInf else NaN)
      else Fin (a / b)
  | Fin _, _ => Fin 0
  | PInf, Fin b => if decide (b < 0) then NInf else PInf
  | NInf, Fin b => if decide (b < 0) then PInf else NInf
  | _, _ => NaN
  end.

Definition sqrt (x : float) : float :=
  match x with
  | Fin r => if decide (r < 0) then NaN else Fin (R_sqrt.sqrt r)
  | PInf => PInf
  | _ => NaN
  end.

(** [x < y]; false as soon as one side is NaN. *)
Definition ltb (x y : float) : bool :=
  match x, y with
  | NaN, _ | _, NaN => false
  | Fin a, Fin b => bool_decide (a < b)
  | NInf, NInf | PInf, _ | _, NInf => false
  | _, _ => true
  end.

Definition gtb (x y : float) : bool := ltb y x.

(** [pd.isna] *)
Definition isna (x : float) : bool :=
  match x with NaN => true | _ => false end.

(** Round to the nearest integer, ties to the even one ([np.rint]). *)
Definition rint (x : R) : Z :=
  let f := Zfloor x in
  if decide (x - IZR f < 1 / 2) then f
  else if decide (1 / 2 < x - IZR f) then (f + 1)%Z
  else if Z.even f then f else (f + 1)%Z.

Definition round2_R (x : R) : R := IZR (rint (x * 100)) / 100.

(** [round(x, 2)] on a NumPy scalar: [rint(x * 100) / 100]; the special
    values are returned as they are. *)
Definition round2 (x : float) : float :=
  match x with
  | Fin r => Fin (round2_R r)
  | _ => x
  end.

End Float.

Notation "x ⊕ y" := (Float.add x y) (at level 50, left associativity).
Notation "x ⊖ y" := (Float.sub x y) (at level 50, left associativity).
Notation "x ⊗ y" := (Float.mul x y) (at level 40, left associativity).
Notation "x ⊘ y" := (Float.div x y) (at level 40, left associativity).

(** ** Exceptions, and computations that read the clock *)

Inductive exn : Type := IndexError | ValueError.

Inductive result (A : Type) : Type :=
  | Ok (a : A)
  | Raise (e : exn).
Arguments Ok {A} a.
Arguments Raise {A} e.

Global Instance result_ret : MRet result := λ A a, Ok a.
Global Instance result_bind : MBind result := λ A B f m,
  match m with
  | Ok a => f a
  | Raise e => Raise e
  end.

Definition instant : Type := Z.

(** [clk k] is the instant that the read number [k] of the system clock
    returns. *)
Definition clock : Type := nat → instant.

(** A computation that may read the clock and may raise: from the clock
    and the number of reads made so far, to an outcome and the number of
    reads made after it. *)
Definition M (A : Type) : Type := clock → nat → result A * nat.

Global Instance M_ret : MRet M := λ A a _ n, (Ok a, n).
Global Instance M_bind : MBind M := λ A B f m clk n,
  match m clk n with
  | (Ok a, n') => f a clk n'
  | (Raise e, n') => (Raise e, n')
  end.

Definition lift {A} (r : result A) : M A := λ _ n, (r, n).

(** [datetime.now()] *)
Definition datetime_now : M instant := λ clk n, (Ok (clk n), S n).

(** [timedelta(days=d, hours=h)], in microseconds. *)
Definition timedelta (days hours : Z) : Z :=
  ((days * 24 + hours) * 3600 * 1000000)%Z.

(** What [strftime] keeps of an instant: the format ['%Y-%m-%d %H:%M']
    denotes a minute, ['%Y-%m-%d %H:%M:%S'] a second.  The string itself
    is not built. *)
Definition strftime_minute (t : instant) : Z := (t `div` 60000000)%Z.
Definition strftime_second (t : instant) : Z := (t `div` 1000000)%Z.

(** ** Rows and the pandas operations the source calls *)

(** A row of the frame [get_price_data] returns.  [price_usd] is
    [REAL NOT NULL] in the schema; the nullable columns read as NaN when
    NULL.  The frame's index is the row's timestamp. *)
Record row : Type := Row {
  index : instant;
  price_usd : R;
  market_cap : float;
  volume_24h : float;
  price_change_24h : float
}.

Definition DataFrame : Type := list row.
Definition Series : Type := list float.

Module Pd.

(** [df.empty] *)
Definition empty {A} (df : list A) : bool :=
  match df with [] => true | _ => false end.

(** [df['price_usd']] *)
Definition price_col (df : DataFrame) : Series :=
  map (λ r, Fin (price_usd r)) df.

(** [df['price_usd']] with its index *)
Definition price_items (df : DataFrame) : list (instant * float) :=
  map (λ r, (index r, Fin (price_usd r))) df.

(** [df[df.index >= t]] *)
Definition since (t : instant) (df : DataFrame) : DataFrame :=
  filter (λ r, (t ≤ index r)%Z) df.
Arguments since t%_Z df.

(** [s.iloc[-1]] and [s.iloc[0]] *)
Definition iloc_last {A} (s : list A) : result A :=
  match last s with
  | Some x => Ok x
  | None => Raise IndexError
  end.

Definition iloc_first {A} (s : list A) : result A :=
  match s with
  | x :: _ => Ok x
  | [] => Raise IndexError
  end.

Definition sum (s : Series) : float := foldr Float.add (Fin 0) s.

Definition mean (s : Series) : float := sum s ⊘ Fin (INR (length s)).

(** [s.rolling(window=w).mean()]: NaN until [w] values are there, then
    the mean of the [w] values that end at the position.  A negative
    window is refused. *)
Definition rolling_mean (w : Z) (s : Series) : result Series :=
  if decide (w < 0)%Z then Raise ValueError
  else
    let n := Z.to_nat w in
    Ok (map (λ i, if decide (S i < n)%nat then NaN
                  else mean (take n (drop (S i - n) s)))
            (seq 0 (length s))).

(** [s.diff()] *)
Definition diff (s : Series) : Series :=
  match s with
  | [] => []
  | _ :: t => NaN :: zip_with (λ cur prev, cur ⊖ prev) t s
  end.

(** [s.pct_change()]: [s / s.shift(1) - 1] *)
Definition pct_change (s : Series) : Series :=
  match s with
  | [] => []
  | _ :: t => NaN :: zip_with (λ cur prev, cur ⊘ prev ⊖ Fin 1) t s
  end.

(** [s.where(cond, other)], the condition given on the values *)
Definition where_ (cond : float → bool) (other : float) (s : Series) : Series :=
  map (λ x, if cond x then x else other) s.

(** [s.dropna()] *)
Definition dropna (s : Series) : Series :=
  filter (λ x, Float.isna x = false) s.

(** [s.std()]: the sample standard deviation ([ddof=1]) of the values
    that are not NaN; NaN when there are fewer than two of them. *)
Definition std (s : Series) : float :=
  let values := dropna s in
  let count := length values in
  if decide (count ≤ 1)%nat then NaN
  else
    let avg := sum values ⊘ Fin (INR count) in
    let sqr := map (λ v, (avg ⊖ v) ⊗ (avg ⊖ v)) values in
    Float.sqrt (sum sqr ⊘ Fin (INR count - 1)).

(** [s.min()] and [s.max()]: over the values that are not NaN; NaN when
    there is none. *)
Definition min (s : Series) : float :=
  match dropna s with
  | [] => NaN
  | x :: t => foldl (λ best v, if Float.ltb v best then v else best) x t
  end.

Definition max (s : Series) : float :=
  match dropna s with
  | [] => NaN
  | x :: t => foldl (λ best v, if Float.ltb best v then v else best) x t
  end.

(** [s.idxmin()] and [s.idxmax()]: the index label of the first
    occurrence of the minimum (maximum); refused when there is no
    value. *)
Definition idxmin (s : list (instant * float)) : result instant :=
  match filter (λ p, Float.isna p.2 = false) s with
  | [] => Raise ValueError
  | p :: t =>
      Ok (foldl (λ best q, if Float.ltb q.2 best.2 then q else best) p t).1
  end.

Definition idxmax (s : list (instant * float)) : result instant :=
  match filter (λ p, Float.isna p.2 = false) s with
  | [] => Raise ValueError
  | p :: t =>
      Ok (foldl (λ best q, if Float.ltb best.2 q.2 then q else best) p t).1
  end.

End Pd.


(** ** [CryptoAnalytics] *)

(** The dictionaries with a fixed set of keys are records; a dictionary
    that the source may return empty ([{}]) is an [option] of the record,
    [None] standing for [{}].  The two dictionaries filled key by key are
    finite maps from the key to the value, [None] being Python's [None]. *)

Record min_max : Type := MinMax {
  min_price : float;
  max_price : float;
  min_time : Z;
  max_time : Z
}.

Record analytics : Type := Analytics {
  symbol : string;
  current_price : float;
  timestamp : Z;
  moving_averages : gmap string (option float);
  percentage_changes : gmap string (option float);
  volatility_7d : float;
  volatility_30d : float;
  min_max_7d : option min_max;
  min_max_30d : option min_max;
  rsi_14 : option float;
  data_points : nat;
  latest_market_cap : option float;
  latest_volume_24h : option float
}.

(** [f'ma_{window}d'] *)
Definition ma_key (window : Z) : string := "ma_" +:+ pretty window +:+ "d".

(** The body of the loop of [calculate_moving_averages] over the windows
    left, [ma_results] being the dictionary filled so far. *)
Fixpoint moving_averages_loop (df : DataFrame) (windows : list Z)
    (ma_results : gmap string (option float)) : result (gmap string (option float)) :=
  match windows with
  | [] => Ok ma_results
  | window :: rest =>
      if decide (window ≤ Z.of_nat (length df))%Z then
        rolled ← Pd.rolling_mean window (Pd.price_col df);
        ma_value ← Pd.iloc_last rolled;
        moving_averages_loop df rest
          (<[ma_key window := Some (Float.round2 ma_value)]> ma_results)
      else
        moving_averages_loop df rest (<[ma_key window := None]> ma_results)
  end.

Definition calculate_moving_averages (df : DataFrame) (windows : list Z)
    : result (gmap string (option float)) :=
  if Pd.empty df then Ok ∅
  else moving_averages_loop df windows ∅.

Definition default_windows : list Z := [7; 30]%Z.

(** One of the four blocks of [calculate_percentage_changes]: the change
    of [current_price] against the first row not older than [lookback]
    before the clock's reading. *)
Definition change_since (df : DataFrame) (current_price : float) (lookback : Z)
    : M (option float) :=
  now ← datetime_now;
  let ago := (now - lookback)%Z in
  let data := Pd.since ago df in
  if decide (2 ≤ length data)%nat then
    price ← lift (Pd.iloc_first (Pd.price_col data));
    mret (Some (Float.round2 (((current_price ⊖ price) ⊘ price) ⊗ Fin 100)))
  else mret None.

Definition calculate_percentage_changes (df : DataFrame)
    : M (gmap string (option float)) :=
  if Pd.empty df then mret ∅
  else
    current_price ← lift (Pd.iloc_last (Pd.price_col df));
    let changes : gmap string (option float) := ∅ in
    change_1h ← change_since df current_price (timedelta 0 1);
    let changes := <["change_1h" := change_1h]> changes in
    change_24h ← change_since df current_price (timedelta 1 0);
    let changes := <["change_24h" := change_24h]> changes in
    change_7d ← change_since df current_price (timedelta 7 0);
    let changes := <["change_7d" := change_7d]> changes in
    change_30d ← change_since df current_price (timedelta 30 0);
    let changes := <["change_30d" := change_30d]> changes in
    mret changes.

Definition calculate_volatility (df : DataFrame) (days : Z) : float :=
  if decide (length df < 2)%nat then Fin 0
  else
    let returns := Pd.dropna (Pd.pct_change (Pd.price_col df)) in
    let volatility := Pd.std returns ⊗ Float.sqrt (Fin 24) in
    Float.round2 (volatility ⊗ Fin 100).

Definition get_min_max_values (df : DataFrame) (days : Z) : M (option min_max) :=
  if Pd.empty df then mret None
  else
    now ← datetime_now;
    let period_data := Pd.since (now - timedelta days 0)%Z df in
    if Pd.empty period_data then mret None
    else
      tmin ← lift (Pd.idxmin (Pd.price_items period_data));
      tmax ← lift (Pd.idxmax (Pd.price_items period_data));
      mret (Some {|
        min_price := Float.round2 (Pd.min (Pd.price_col period_data));
        max_price := Float.round2 (Pd.max (Pd.price_col period_data));
        min_time := strftime_minute tmin;
        max_time := strftime_minute tmax |}).

Definition calculate_rsi (df : DataFrame) (period : Z) : result (option float) :=
  if decide (Z.of_nat (length df) < period + 1)%Z then Ok None
  else
    let prices := Pd.price_col df in
    let delta := Pd.diff prices in
    gain ← Pd.rolling_mean period
              (Pd.where_ (λ d, Float.gtb d (Fin 0)) (Fin 0) delta);
    loss ← Pd.rolling_mean period
              (map Float.neg (Pd.where_ (λ d, Float.ltb d (Fin 0)) (Fin 0) delta));
    let rs := zip_with Float.div gain loss in
    let rsi := map (λ x, Fin 100 ⊖ (Fin 100 ⊘ (Fin 1 ⊕ x))) rs in
    final ← Pd.iloc_last rsi;
    Ok (if Float.isna final then None else Some (Float.round2 final)).

(** [generate_comprehensive_analytics], from the frame that
    [get_price_data(symbol, days=30)] returned.  The entries of the
    dictionary are evaluated in the order they are written, which fixes
    the order of the clock reads. *)
Definition generate_comprehensive_analytics (sym : string) (df : DataFrame)
    : M (option analytics) :=
  if Pd.empty df then mret None
  else
    price ← lift (Pd.iloc_last (Pd.price_col df));
    now ← datetime_now;
    mas ← lift (calculate_moving_averages df default_windows);
    changes ← calculate_percentage_changes df;
    let vol7 := calculate_volatility df 7 in
    let vol30 := calculate_volatility df 30 in
    mm7 ← get_min_max_values df 7;
    mm30 ← get_min_max_values df 30;
    rsi ← lift (calculate_rsi df 14);
    cap ← lift (Pd.iloc_last (map market_cap df));
    vol ← lift (Pd.iloc_last (map volume_24h df));
    mret (Some {|
      symbol := sym;
      current_price := Float.round2 price;
      timestamp := strftime_second now;
      moving_averages := mas;
      percentage_changes := changes;
      volatility_7d := vol7;
      volatility_30d := vol30;
      min_max_7d := mm7;
      min_max_30d := mm30;
      rsi_14 := rsi;
      data_points := length df;
      latest_market_cap := Some cap;
      latest_volume_24h := Some vol |}).

(** ** Notions of the specification *)

(** The prices of a series, as real numbers. *)
Definition prices (df : DataFrame) : list R := map price_usd df.

Definition Rsum (l : list R) : R := foldr Rplus 0 l.

(** The arithmetic mean. *)
Definition Rmean (l : list R) : R := Rsum l / INR (length l).

(** The last [n] elements. *)
Definition last_n {A} (n : nat) (l : list A) : list A := drop (length l - n) l.

(** A metric is "unavailable" in a dictionary when its key is absent or
    bound to [None]; the consumers of the report ([store_analytics], the
    dashboard) treat the two alike. *)
Definition unavailable {A} (entry : option (option A)) : Prop :=
  entry = None ∨ entry = Some None.

(** The entry that one turn of the loop of [calculate_moving_averages]
    binds to the key of [window], when the window is not negative. *)
Definition ma_entry (df : DataFrame) (window : Z) : option float :=
  if decide (window ≤ Z.of_nat (length df))%Z
  then Some (Float.round2 (Pd.mean (last_n (Z.to_nat window) (Pd.price_col df))))
  else None.

(** ** Series of the scenarios *)

(** An observation with only its timestamp and price known. *)
Definition obs (t : instant) (p : R) : row :=
  {| index := t; price_usd := p; market_cap := NaN; volume_24h := NaN;
     price_change_24h := NaN |}.
Arguments obs t%_Z p%_R.

Definition hour : Z := 3600000000%Z.
Definition day : Z := 86400000000%Z.

(** Eight daily closes. *)
Definition closes8 : DataFrame :=
  [obs (0 * day) 100; obs (1 * day) 102; obs (2 * day) 101; obs (3 * day) 105;
   obs (4 * day) 110; obs (5 * day) 108; obs (6 * day) 112; obs (7 * day) 115].

(** ** Percentage changes, as the specification words them *)

(** The metrics of [calculate_percentage_changes]: the key and the
    lookback, in the order the source computes them. *)
Definition lookbacks : list (string * Z) :=
  [("change_1h", timedelta 0 1); ("change_24h", timedelta 1 0);
   ("change_7d", timedelta 7 0); ("change_30d", timedelta 30 0)].

(** The observations with a timestamp in [[now - lookback, now]]. *)
Definition in_window (now lookback : Z) (df : DataFrame) : DataFrame :=
  filter (λ r, (now - lookback ≤ index r ≤ now)%Z) df.

(** The price of the earliest observation not older than [lookback]. *)
Definition base_price (now lookback : Z) (df : DataFrame) : option R :=
  head (prices (filter (λ r, (now - lookback ≤ index r)%Z) df)).

Definition pct_change_R (current base : R) : R :=
  (current - base) / base * 100.

(** The entry that one block of [calculate_percentage_changes] computes
    when the clock reads [now]. *)
Definition change_entry (df : DataFrame) (current_price : float)
    (lookback now : Z) : option float :=
  match Pd.price_col (Pd.since (now - lookback)%Z df) with
  | price :: _ :: _ =>
      Some (Float.round2 (((current_price ⊖ price) ⊘ price) ⊗ Fin 100))
  | _ => None
  end.

(** Two observations one hour apart. *)
Definition two_hourly : DataFrame := [obs 0 100; obs hour 110].

(** Every price of the series multiplied by [c]. *)
Definition scale (c : R) (df : DataFrame) : DataFrame :=
  map (λ r, {| index := index r; price_usd := c * price_usd r;
               market_cap := market_cap r; volume_24h := volume_24h r;
               price_change_24h := price_change_24h r |}) df.

(** ** Extrema, as the specification words them *)

(** The row of the first smallest (largest) price among [r :: rows]. *)
Definition argmin_row (r : row) (rows : list row) : row :=
  foldl (λ best q, if bool_decide (price_usd q < price_usd best) then q else best)
        r rows.

Definition argmax_row (r : row) (rows : list row) : row :=
  foldl (λ best q, if bool_decide (price_usd best < price_usd q) then q else best)
        r rows.

(** The observations of the last [days] days at the instant [now]. *)
Definition within_last (now days : Z) (df : DataFrame) : DataFrame :=
  filter (λ r, (now - timedelta days 0 ≤ index r)%Z) df.

(** One observation, with a price of three decimals. *)
Definition one_fine_price : DataFrame := [obs 0 (126 / 1000)].

(** ** RSI, as the specification words it *)

(** The per-step price deltas [p_i - p_(i-1)]. *)
Definition deltas (ps : list R) : list R := zip_with Rminus (tail ps) ps.

Definition gain_of (d : R) : R := if decide (0 < d) then d else 0.
Definition loss_of (d : R) : R := if decide (d < 0) then - d else 0.

(** The trailing simple averages of the gains and of the losses. *)
Definition avg_gain (period : nat) (ps : list R) : R :=
  Rmean (last_n period (map gain_of (deltas ps))).

Definition avg_loss (period : nat) (ps : list R) : R :=
  Rmean (last_n period (map loss_of (deltas ps))).

(** [100 - 100 / (1 + avg_gain / avg_loss)], as the source computes the
    last value of [rsi]. *)
Definition rsi_final (gain loss : R) : float :=
  Fin 100 ⊖ (Fin 100 ⊘ (Fin 1 ⊕ (Fin gain ⊘ Fin loss))).

(** Fifteen hourly observations, each one above the one before. *)
Definition rising15 : DataFrame :=
  [obs (0 * hour) 1; obs (1 * hour) 2; obs (2 * hour) 3; obs (3 * hour) 4;
   obs (4 * hour) 5; obs (5 * hour) 6; obs (6 * hour) 7; obs (7 * hour) 8;
   obs (8 * hour) 9; obs (9 * hour) 10; obs (10 * hour) 11; obs (11 * hour) 12;
   obs (12 * hour) 13; obs (13 * hour) 14; obs (14 * hour) 15].

(** ** Volatility, as the specification words it *)

(** The period-over-period returns [p_i / p_(i-1) - 1] over all the
    consecutive pairs. *)
Definition returns (ps : list R) : list R :=
  zip_with (λ cur prev, cur / prev - 1) (tail ps) ps.

(** The sample standard deviation. *)
Definition sample_std (xs : list R) : R :=
  sqrt (Rsum (map (λ x, (x - Rmean xs) * (x - Rmean xs)) xs)
        / (INR (length xs) - 1)).

(** Two observations of one price, and twenty observations of price zero. *)
Definition flat2 : DataFrame := [obs 0 5; obs hour 5].

Definition zero20 : DataFrame :=
  map (λ i : nat, obs (Z.of_nat i * hour) 0) (seq 0 20).

(** Twenty hourly observations of the price 50. *)
Definition flat20 : DataFrame :=
  map (λ i : nat, obs (Z.of_nat i * hour) 50) (seq 0 20).

(** ** The report, entry by entry *)

(** The dictionary that [calculate_percentage_changes] fills when the four
    reads of the clock return [t1], [t2], [t3] and [t4]. *)
Definition changes_at (df : DataFrame) (current_price : float)
    (t1 t2 t3 t4 : instant) : gmap string (option float) :=
  <["change_30d" := change_entry df current_price (timedelta 30 0) t4]>
  (<["change_7d" := change_entry df current_price (timedelta 7 0) t3]>
  (<["change_24h" := change_entry df current_price (timedelta 1 0) t2]>
  (<["change_1h" := change_entry df current_price (timedelta 0 1) t1]> ∅))).

(** What [get_min_max_values] returns on a frame that is not empty when
    the clock reads [now]. *)
Definition min_max_entry (df : DataFrame) (days : Z) (now : instant)
    : option min_max :=
  match within_last now days df with
  | [] => None
  | r :: rows =>
      Some {| min_price := Fin (Float.round2_R (price_usd (argmin_row r rows)));
              max_price := Fin (Float.round2_R (price_usd (argmax_row r rows)));
              min_time := strftime_minute (index (argmin_row r rows));
              max_time := strftime_minute (index (argmax_row r rows)) |}
  end.

(** The report of [generate_comprehensive_analytics] on a frame that is
    not empty, from the results of the computations that do not read the
    clock and the seven instants [clk n], ..., [clk (n + 6)]. *)
Definition report_at (sym : string) (df : DataFrame) (price : R)
    (mas : gmap string (option float)) (rsi : option float) (cap vol : float)
    (clk : clock) (n : nat) : analytics :=
  {| symbol := sym;
     current_price := Fin (Float.round2_R price);
     timestamp := strftime_second (clk n);
     moving_averages := mas;
     percentage_changes :=
       changes_at df (Fin price) (clk (n + 1)%nat) (clk (n + 2)%nat)
                  (clk (n + 3)%nat) (clk (n + 4)%nat);
     volatility_7d := calculate_volatility df 7;
     volatility_30d := calculate_volatility df 30;
     min_max_7d := min_max_entry df 7 (clk (n + 5)%nat);
     min_max_30d := min_max_entry df 30 (clk (n + 6)%nat);
     rsi_14 := rsi;
     data_points := length df;
     latest_market_cap := Some cap;
     latest_volume_24h := Some vol |}.

(** A clock stopped at [t]. *)
Definition frozen (t : instant) : clock := λ _, t.
Arguments frozen t%_Z.

(** ** Series and transformations used by the further properties *)

(** Every price of the series moved by [a]. *)
Definition shift (a : R) (df : DataFrame) : DataFrame :=
  map (λ r, {| index := index r; price_usd := price_usd r + a;
               market_cap := market_cap r; volume_24h := volume_24h r;
               price_change_24h := price_change_24h r |}) df.

(** Fifteen hourly observations, each one below the one before. *)
Definition falling15 : DataFrame :=
  [obs (0 * hour) 15; obs (1 * hour) 14; obs (2 * hour) 13; obs (3 * hour) 12;
   obs (4 * hour) 11; obs (5 * hour) 10; obs (6 * hour) 9; obs (7 * hour) 8;
   obs (8 * hour) 7; obs (9 * hour) 6; obs (10 * hour) 5; obs (11 * hour) 4;
   obs (12 * hour) 3; obs (13 * hour) 2; obs (14 * hour) 1].

(** ** [store_analytics] and the table [analytics] *)

(** The table [analytics] has the constraint
    [UNIQUE(symbol, metric_name, time_period, timestamp)] and is written
    with [INSERT OR REPLACE] only: its content is a finite map from these
    four columns to [metric_value] (the row identifiers are left out).  The
    timestamp is the second that the stored string denotes. *)
Abbreviation analytics_table := (gmap (string * string * string * Z) float).

Section store.

(** The values that the column [metric_value REAL NOT NULL] takes; the
    insertion of any other value raises. *)
Variable accepts : float → bool.

(** [cursor.execute("INSERT OR REPLACE INTO analytics ...", (symbol,
    metric_name, value, period, timestamp))]; [None] when it raises. *)
Definition insert_or_replace (db : analytics_table) (sym metric_name : string)
    (value : float) (period : string) (ts : Z) : option analytics_table :=
  if accepts value then Some (<[(sym, metric_name, period, ts) := value]> db)
  else None.

(** The loop over the items of a dictionary of metrics. *)
Fixpoint store_items (sym period : string) (ts : Z)
    (items : list (string * option float)) (db : analytics_table)
    : option analytics_table :=
  match items with
  | [] => Some db
  | (metric_name, value) :: rest =>
      match value with
      | Some v =>
          db' ← insert_or_replace db sym metric_name v period ts;
          store_items sym period ts rest db'
      | None => store_items sym period ts rest db
      end
  end.

(** The body of the [try] block of [store_analytics]: [None] when an
    insertion raised. *)
Definition store_analytics_try (a : analytics) (db : analytics_table)
    : option analytics_table :=
  let sym := symbol a in
  let ts := timestamp a in
  db ← store_items sym "30d" ts (map_to_list (moving_averages a)) db;
  db ← store_items sym "current" ts (map_to_list (percentage_changes a)) db;
  db ← insert_or_replace db sym "volatility" (volatility_7d a) "7d" ts;
  db ← match rsi_14 a with
       | Some v => insert_or_replace db sym "rsi" v "14d" ts
       | None => Some db
       end;
  Some db.

(** [store_analytics]: nothing is done for the empty report; otherwise the
    insertions are committed together, or rolled back together when one of
    them raised. *)
Definition store_analytics (report : option analytics) (db : analytics_table)
    : analytics_table :=
  match report with
  | None => db
  | Some a =>
      match store_analytics_try a db with
      | Some db' => db'
      | None => db
      end
  end.

End store.

(** The value that a report holds for a row of the table, if it holds
    one: the moving averages under the period ["30d"], the percentage
    changes under ["current"], the 7-day volatility and the RSI. *)
Definition stored_value (a : analytics) (key : string * string * string * Z)
    : option float :=
  let '(sym, metric_name, period, ts) := key in
  if decide (sym = symbol a ∧ ts = timestamp a) then
    if decide (period = "30d") then mjoin (moving_averages a !! metric_name)
    else if decide (period = "current") then
      mjoin (percentage_changes a !! metric_name)
    else if decide (metric_name = "volatility" ∧ period = "7d") then
      Some (volatility_7d a)
    else if decide (metric_name = "rsi" ∧ period = "14d") then rsi_14 a
    else None
  else None.

(** [db'] is [db] with the rows that [writes] gives a value replaced. *)
Definition overlay (writes : string * string * string * Z → option float)
    (db db' : analytics_table) : Prop :=
  ∀ key, db' !! key = from_option Some (db !! key) (writes key).

(** The rows that the loop over the items of the dictionary [m] writes. *)
Definition items_writes (sym period : string) (ts : Z)
    (m : gmap string (option float)) (key : string * string * string * Z)
    : option float :=
  let '(s, n, p, t) := key in
  if decide (s = sym ∧ p = period ∧ t = ts) then mjoin (m !! n) else None.

(** A table that refuses NaN and nothing else. *)
Definition accepts_not_nan (x : float) : bool := negb (Float.isna x).

(** A report whose volatility is NaN. *)
Definition report_nan_volatility : analytics :=
  {| symbol := "BTC"; current_price := Fin 110; timestamp := 3600;
     moving_averages := {["ma_7d" := None; "ma_30d" := None]};
     percentage_changes := {["change_1h" := Some (Fin 10)]};
     volatility_7d := NaN; volatility_30d := NaN;
     min_max_7d := None; min_max_30d := None; rsi_14 := None;
     data_points := 2; latest_market_cap := Some NaN;
     latest_volume_24h := Some NaN |}.

(** ** [update_all_analytics] *)

Section update.

Variable accepts : float → bool.

(** The frame that [get_price_data(symbol, days=30)] returns for the
    symbol when its turn comes; the query is not modelled. *)
Variable get_price_data : string → DataFrame.

(** The loop of [update_all_analytics] over the symbols that
    [get_all_symbols] returned; an exception in a turn is logged and the
    loop goes on. *)
Fixpoint update_all_analytics (symbols : list string) (db : analytics_table)
    : M analytics_table :=
  match symbols with
  | [] => mret db
  | sym :: rest =>
      λ clk n,
        match generate_comprehensive_analytics sym (get_price_data sym) clk n with
        | (Ok report, n') =>
            update_all_analytics rest (store_analytics accepts report db) clk n'
        | (Raise _, n') => update_all_analytics rest db clk n'
        end
  end.

End update.

(** ** [CryptoDataScheduler] ([scripts/scheduler.py]) *)

(** The counters of the scheduler. *)
Record scheduler : Type := Scheduler {
  failed_attempts : Z;
  max_failures : Z;
  consecutive_failures : Z
}.

(** [__init__] *)
Definition scheduler_init : scheduler :=
  {| failed_attempts := 0; max_failures := 5; consecutive_failures := 0 |}.

Definition handle_failure (s : scheduler) : scheduler :=
  let consecutive := (consecutive_failures s + 1)%Z in
  let failed := (failed_attempts s + 1)%Z in
  {| failed_attempts := failed;
     max_failures := max_failures s;
     consecutive_failures :=
       if decide (max_failures s ≤ consecutive)%Z then 0%Z else consecutive |}.

(** What [fetch_and_store()] did: returned [True], returned [False], or
    raised. *)
Inductive fetch_outcome : Type := Stored | NotStored | FetchRaised.

(** [fetch_data_with_retry], on the counters.  After a success the
    analytics are updated inside a [try] of their own, whose outcome does
    not reach the counters. *)
Definition fetch_data_with_retry (o : fetch_outcome) (s : scheduler) : scheduler :=
  match o with
  | Stored =>
      {| failed_attempts := 0; max_failures := max_failures s;
         consecutive_failures := 0 |}
  | NotStored | FetchRaised => handle_failure s
  end.

(** The counters after the runs of a list of outcomes, first run first. *)
Definition scheduler_after (outcomes : list fetch_outcome) : scheduler :=
  foldl (λ s o, fetch_data_with_retry o s) scheduler_init outcomes.

(** The number of outcomes at the head of a list before the first
    success, and the number of runs since the last success. *)
Fixpoint leading_failures (outcomes : list fetch_outcome) : nat :=
  match outcomes with
  | [] | Stored :: _ => 0
  | _ :: rest => S (leading_failures rest)
  end.

Definition failures_since_success (outcomes : list fetch_outcome) : nat :=
  leading_failures (rev outcomes).

(** ** [store_crypto_data] ([scripts/fetch_data.py]) *)

Definition CRYPTOCURRENCIES : list (string * string) :=
  [("bitcoin", "BTC"); ("ethereum", "ETH"); ("cardano", "ADA");
   ("solana", "SOL"); ("polkadot", "DOT"); ("chainlink", "LINK");
   ("litecoin", "LTC"); ("bitcoin-cash", "BCH")].

(** [str.upper], on the ASCII letters. *)
Definition upper_ascii (c : Ascii.ascii) : Ascii.ascii :=
  let n := Ascii.nat_of_ascii c in
  if decide (97 ≤ n ≤ 122)%nat then Ascii.ascii_of_nat (n - 32) else c.

Fixpoint upper (s : string) : string :=
  match s with
  | EmptyString => EmptyString
  | String c rest => String (upper_ascii c) (upper rest)
  end.

(** [CRYPTOCURRENCIES.get(coin_id, coin_id.upper())] *)
Definition symbol_of (coin_id : string) : string :=
  default (upper coin_id)
          ((list_to_map CRYPTOCURRENCIES : gmap string string) !! coin_id).

(** The entry of one coin in the payload of the price API: a dictionary
    whose values are numbers or [null] ([None] here). *)
Abbreviation coin_data := (gmap string (option R)).

(** A row of the table [prices]; the table is the list of its rows in the
    order of their insertion. *)
Record price_record : Type := PriceRecord {
  pr_symbol : string;
  pr_name : string;
  pr_row : row
}.

(** A nullable column: NULL reads back as NaN. *)
Definition nullable (x : option R) : float :=
  match x with Some r => Fin r | None => NaN end.

(** One turn of the loop of [store_crypto_data]; [None] when the insertion
    raises, which it does for a [null] price ([price_usd REAL NOT NULL]). *)
Definition store_coin (timestamp : Z) (coin_id : string) (data : coin_data)
    (tbl : list price_record) : option (list price_record) :=
  match data !! "usd" with
  | None => Some tbl
  | Some None => None
  | Some (Some price) =>
      Some (tbl ++ [{| pr_symbol := symbol_of coin_id;
                       pr_name := coin_id;
                       pr_row := {|
                         index := (timestamp * 1000000)%Z;
                         price_usd := price;
                         market_cap := nullable (mjoin (data !! "usd_market_cap"));
                         volume_24h := nullable (mjoin (data !! "usd_24h_vol"));
                         price_change_24h :=
                           nullable (mjoin (data !! "usd_24h_change")) |} |}])
  end.

Fixpoint store_coins (timestamp : Z) (items : list (string * coin_data))
    (tbl : list price_record) : option (list price_record) :=
  match items with
  | [] => Some tbl
  | (coin_id, data) :: rest =>
      tbl' ← store_coin timestamp coin_id data tbl;
      store_coins timestamp rest tbl'
  end.

(** [store_crypto_data]: the payload is [None] when the fetch failed,
    otherwise the items of the dictionary in their order.  The result is
    the returned boolean and the table after the commit or the rollback. *)
Definition store_crypto_data (data : option (list (string * coin_data)))
    (tbl : list price_record) : M (bool * list price_record) :=
  match data with
  | None | Some [] => mret (false, tbl)
  | Some items =>
      now ← datetime_now;
      let timestamp := strftime_second now in
      match store_coins timestamp items tbl with
      | Some tbl' => mret (true, tbl')
      | None => mret (false, tbl)
      end
  end.

(** The coins of a payload that have a ['usd'] entry. *)
Definition priced (items : list (string * coin_data)) : list (string * coin_data) :=
  filter (λ item, is_Some (item.2 !! "usd")) items.

(** A payload with a known coin, an unknown one, and an entry without a
    price; and a payload that carries no price at all. *)
Definition payload_sample : list (string * coin_data) :=
  [("bitcoin", {["usd" := Some 43000; "usd_market_cap" := None]});
   ("dogecoin", {["usd" := Some (8 / 100)]});
   ("status", ∅)].

Definition payload_error : list (string * coin_data) :=
  [("status", {["error_code" := Some 429]})].

(** ** The analytics section of the dashboard ([dashboard/app.py]) *)

(** The truth value of a number in a condition: zero is false, every other
    value, NaN too, is true. *)
Definition truthy (x : float) : bool :=
  match x with
  | Fin r => bool_decide (r ≠ 0)
  | _ => true
  end.

(** The lines that the column "Technical Indicators" writes, by what they
    show; the text is not built. *)
Inductive indicator_line : Type :=
  | RsiLine (rsi : float) (status : string)
  | VolatilityLine (volatility : float)
  | HighLine (price : float)
  | LowLine (price : float).

Definition rsi_status (rsi : float) : string :=
  if Float.gtb rsi (Fin 70) then "Overbought"
  else if Float.ltb rsi (Fin 30) then "Oversold"
  else "Neutral".

(** The column "Technical Indicators" for a report that is not empty. *)
Definition technical_indicators (a : analytics) : list indicator_line :=
  (match rsi_14 a with
   | Some rsi => if truthy rsi then [RsiLine rsi (rsi_status rsi)] else []
   | None => []
   end)
  ++ (if truthy (volatility_7d a) then [VolatilityLine (volatility_7d a)] else [])
  ++ (match min_max_7d a with
      | Some mm => [HighLine (max_price mm); LowLine (min_price mm)]
      | None => []
      end).

(** * Properties *)

(** ** Rounding *)

Section rounding.

Implicit Types (x y : R) (z : Z).

Lemma rint_bounds x :
  IZR (Float.rint x) - 1 / 2 <= x <= IZR (Float.rint x) + 1 / 2.
Proof.
  unfold Float.rint. pose proof (Zfloor_bound x) as Hb.
  repeat case_decide; rewrite ?plus_IZR; try lra.
  destruct (Z.even _); rewrite ?plus_IZR; lra.
Qed.

Lemma rint_near z x :
  IZR z - 1 / 2 < x < IZR z + 1 / 2 → Float.rint x = z.
Proof.
  intros [Hlo Hhi]. pose proof (rint_bounds x) as [Hl Hu].
  assert (IZR (Float.rint x) < IZR (z + 1)) as H1%lt_IZR
    by (rewrite plus_IZR; lra).
  assert (IZR z < IZR (Float.rint x + 1)) as H2%lt_IZR
    by (rewrite plus_IZR; lra).
  lia.
Qed.

Lemma rint_IZR z : Float.rint (IZR z) = z.
Proof. apply rint_near. lra. Qed.

Lemma rint_mono x y : x <= y → (Float.rint x ≤ Float.rint y)%Z.
Proof.
  intros Hxy.
  destruct (decide (Float.rint x ≤ Float.rint y)%Z) as [|Hn]; [done|].
  pose proof (rint_bounds x) as [Hxl Hxu].
  pose proof (rint_bounds y) as [Hyl Hyu].
  assert (IZR (Float.rint y + 1) <= IZR (Float.rint x)) as Hz
    by (apply IZR_le; lia).
  rewrite plus_IZR in Hz.
  assert (x = y) as -> by lra. lia.
Qed.

Lemma round2_R_mono x y : x <= y → Float.round2_R x <= Float.round2_R y.
Proof.
  intros Hxy. unfold Float.round2_R.
  assert (IZR (Float.rint (x * 100)) <= IZR (Float.rint (y * 100))).
  { apply IZR_le, rint_mono. lra. }
  lra.
Qed.

(** A value with at most two decimals is left as it is. *)
Lemma round2_R_cents z : Float.round2_R (IZR z / 100) = IZR z / 100.
Proof.
  unfold Float.round2_R.
  replace (IZR z / 100 * 100) with (IZR z) by lra.
  by rewrite rint_IZR.
Qed.

Lemma round2_R_near z x :
  IZR z - 1 / 2 < x * 100 < IZR z + 1 / 2 → Float.round2_R x = IZR z / 100.
Proof. intros H. unfold Float.round2_R. by rewrite (rint_near z). Qed.

End rounding.

(** ** Sums, means and the last value of a rolling mean *)

Lemma price_col_prices (df : DataFrame) : Pd.price_col df = map Fin (prices df).
Proof. unfold Pd.price_col, prices. by rewrite map_map. Qed.

Lemma sum_Fin (l : list R) : Pd.sum (map Fin l) = Fin (Rsum l).
Proof.
  unfold Pd.sum. induction l as [|a l IH]; [done|]. cbn. by rewrite IH.
Qed.

Lemma mean_Fin (l : list R) : l ≠ [] → Pd.mean (map Fin l) = Fin (Rmean l).
Proof.
  intros Hl. unfold Pd.mean, Rmean. rewrite sum_Fin, length_map. cbn.
  rewrite decide_False; [done|].
  destruct l; [done|]. apply not_0_INR. cbn. lia.
Qed.

Lemma iloc_last_map_seq {A} (f : nat → A) (n : nat) :
  Pd.iloc_last (map f (seq 0 (S n))) = Ok (f n).
Proof.
  unfold Pd.iloc_last.
  rewrite last_lookup, length_map, length_seq. cbn [Init.Nat.pred].
  by rewrite list_lookup_fmap, lookup_seq_lt by lia.
Qed.

(** On a series with at least [w] values, the last value of the rolling
    mean is the mean of the last [w] values. *)
Lemma rolling_mean_last (w : Z) (s : Series) :
  (0 ≤ w ≤ Z.of_nat (length s))%Z → s ≠ [] →
  Pd.rolling_mean w s ≫= Pd.iloc_last = Ok (Pd.mean (last_n (Z.to_nat w) s)).
Proof.
  intros Hw Hs. unfold Pd.rolling_mean. rewrite decide_False by lia.
  destruct s as [|x s]; [done|]. cbn [length] in *.
  cbn [mbind result_bind]. rewrite iloc_last_map_seq.
  rewrite decide_False by lia.
  unfold last_n. cbn [length]. f_equal. f_equal.
  apply take_ge. rewrite length_drop. cbn [length]. lia.
Qed.

Lemma last_n_map {A B} (f : A → B) n (l : list A) :
  last_n n (map f l) = map f (last_n n l).
Proof. unfold last_n. by rewrite length_map, <-fmap_drop. Qed.

Lemma last_n_length {A} n (l : list A) :
  (n ≤ length l)%nat → length (last_n n l) = n.
Proof. intros Hn. unfold last_n. rewrite length_drop. lia. Qed.

Lemma last_n_nonempty {A} n (l : list A) :
  (0 < n)%nat → l ≠ [] → last_n n l ≠ [].
Proof.
  intros Hn Hl E. apply (f_equal length) in E. unfold last_n in E.
  rewrite length_drop in E. destruct l; [done|]. cbn in E. lia.
Qed.

(** ** Moving averages *)

Lemma string_app_singleton_inj (c : Ascii.ascii) (s1 s2 : string) :
  s1 +:+ String c EmptyString = s2 +:+ String c EmptyString → s1 = s2.
Proof.
  revert s2. induction s1 as [|a s1 IH]; intros [|b s2] E; cbn in E.
  - done.
  - injection E as _ E. by destruct s2.
  - injection E as _ E. by destruct s1.
  - injection E as -> E. f_equal. by apply IH.
Qed.

(** Distinct windows have distinct keys. *)
Global Instance ma_key_inj : Inj (=) (=) ma_key.
Proof.
  intros v w E. unfold ma_key in E.
  apply (inj (String.append _)) in E.
  apply string_app_singleton_inj in E. by apply (inj pretty).
Qed.

(** The loop succeeds on windows that are not negative; it binds the key
    of every window to its entry and leaves the other keys alone. *)
Lemma moving_averages_loop_spec (df : DataFrame) (windows : list Z) :
  df ≠ [] → Forall (λ v, 0 ≤ v)%Z windows →
  ∀ acc, ∃ res,
    moving_averages_loop df windows acc = Ok res
    ∧ (∀ w, w ∈ windows → res !! ma_key w = Some (ma_entry df w))
    ∧ (∀ k, (∀ w, w ∈ windows → ma_key w ≠ k) → res !! k = acc !! k).
Proof.
  intros Hdf. induction 1 as [|v rest Hv Hrest IH]; intros acc.
  { exists acc. split_and!; [done| |done].
    intros w Hw. by apply elem_of_nil in Hw. }
  assert (moving_averages_loop df (v :: rest) acc
          = moving_averages_loop df rest (<[ma_key v := ma_entry df v]> acc)) as ->.
  { cbn [moving_averages_loop]. unfold ma_entry. case_decide as Hle; [|done].
    pose proof (rolling_mean_last v (Pd.price_col df)) as Hr.
    unfold Pd.price_col in Hr at 1. rewrite length_map in Hr.
    specialize (Hr (conj Hv Hle)).
    destruct (Pd.rolling_mean v (Pd.price_col df)) as [rolled|e]; cbn in Hr |- *.
    - rewrite Hr; [done|]. by destruct df.
    - exfalso. ospecialize (Hr _); [by destruct df|]. done. }
  destruct (IH (<[ma_key v := ma_entry df v]> acc)) as (res & Hres & Hin & Hout).
  exists res. split_and!; [done| |].
  - intros w [->|Hw]%elem_of_cons; [|by apply Hin].
    destruct (decide (v ∈ rest)) as [|Hn]; [by apply Hin|].
    rewrite Hout, lookup_insert_eq; [done|].
    intros w Hw E. apply (inj _) in E. congruence.
  - intros k Hk. rewrite Hout.
    + rewrite lookup_insert_ne; [done|]. apply Hk. left.
    + intros w Hw. apply Hk. by right.
Qed.

Lemma ma_entry_mean (df : DataFrame) (w : Z) :
  (1 ≤ w ≤ Z.of_nat (length df))%Z →
  ma_entry df w
  = Some (Fin (Float.round2_R (Rmean (last_n (Z.to_nat w) (prices df))))).
Proof.
  intros Hw. unfold ma_entry. rewrite decide_True by lia.
  rewrite price_col_prices, last_n_map, mean_Fin; [done|].
  apply last_n_nonempty; [lia|]. destruct df; [cbn in Hw; lia|done].
Qed.

Lemma ma_7d_closes8 :
  Float.round2_R (Rmean (last_n 7 (prices closes8))) = 10757 / 100.
Proof.
  apply round2_R_near.
  cbv [closes8 prices last_n obs map length drop Nat.sub price_usd
       Rmean Rsum foldr INR].
  lra.
Qed.

Lemma moving_averages_general (df : DataFrame) (windows : list Z) (w : Z) :
  (1 ≤ w)%Z → w ∈ windows → Forall (λ v, 0 ≤ v)%Z windows →
  ∃ ma_results,
    calculate_moving_averages df windows = Ok ma_results
    ∧ ((w ≤ Z.of_nat (length df))%Z →
        ma_results !! ma_key w
        = Some (Some (Fin (Float.round2_R
                             (Rmean (last_n (Z.to_nat w) (prices df)))))))
    ∧ ((Z.of_nat (length df) < w)%Z → unavailable (ma_results !! ma_key w)).
Proof.
  intros Hw Hin Hpos. unfold calculate_moving_averages.
  destruct df as [|r df'].
  { exists ∅. cbn. split_and!; [done|lia|]. intros _. by left. }
  cbn [Pd.empty]. set (df := r :: df'). assert (df ≠ []) as Hne by done.
  destruct (moving_averages_loop_spec df windows Hne Hpos ∅)
    as (res & Hres & Hlook & _).
  exists res. split_and!; [done| |].
  - intros Hle. by rewrite (Hlook w Hin), ma_entry_mean by lia.
  - intros Hlt. right. rewrite (Hlook w Hin). unfold ma_entry.
    by rewrite decide_False by lia.
Qed.



(** ** Computations in [M] *)

Lemma M_bind_run {A B} (m : M A) (f : A → M B) clk n :
  (m ≫= f) clk n
  = match m clk n with
    | (Ok a, n') => f a clk n'
    | (Raise e, n') => (Raise e, n')
    end.
Proof. done. Qed.

Lemma M_ret_run {A} (a : A) clk n : (mret a : M A) clk n = (Ok a, n).
Proof. done. Qed.

Lemma lift_run {A} (r : result A) clk n : lift r clk n = (r, n).
Proof. done. Qed.

Lemma iloc_last_price_col (df : DataFrame) :
  Pd.iloc_last (Pd.price_col df)
  = match last (prices df) with Some p => Ok (Fin p) | None => Raise IndexError end.
Proof.
  unfold Pd.iloc_last. rewrite price_col_prices, fmap_last.
  by destruct (last (prices df)).
Qed.

(** ** Percentage changes *)

Lemma change_since_run (df : DataFrame) (current_price : float) (lookback : Z)
    (clk : clock) (n : nat) :
  change_since df current_price lookback clk n
  = (Ok (change_entry df current_price lookback (clk n)), S n).
Proof.
  unfold change_since, change_entry.
  rewrite M_bind_run. cbn [datetime_now].
  destruct (Pd.since _ df) as [|r [|r' data]]; cbn [length Pd.price_col map].
  - by rewrite decide_False by lia.
  - by rewrite decide_False by lia.
  - by rewrite decide_True by lia.
Qed.

Lemma calculate_percentage_changes_run (df : DataFrame) (p : R)
    (clk : clock) (n : nat) :
  last (prices df) = Some p →
  calculate_percentage_changes df clk n
  = (Ok (<["change_30d" := change_entry df (Fin p) (timedelta 30 0) (clk (n + 3)%nat)]>
         (<["change_7d" := change_entry df (Fin p) (timedelta 7 0) (clk (n + 2)%nat)]>
         (<["change_24h" := change_entry df (Fin p) (timedelta 1 0) (clk (n + 1)%nat)]>
         (<["change_1h" := change_entry df (Fin p) (timedelta 0 1) (clk (n + 0)%nat)]> ∅)))),
     (n + 4)%nat).
Proof.
  intros Hlast. unfold calculate_percentage_changes.
  destruct df as [|r df]; [done|]. cbn [Pd.empty].
  rewrite M_bind_run, lift_run, iloc_last_price_col, Hlast.
  rewrite M_bind_run, change_since_run.
  rewrite M_bind_run, change_since_run.
  rewrite M_bind_run, change_since_run.
  rewrite M_bind_run, change_since_run.
  rewrite M_ret_run.
  replace (n + 0)%nat with n by lia. replace (n + 1)%nat with (S n) by lia.
  replace (n + 2)%nat with (S (S n)) by lia.
  replace (n + 3)%nat with (S (S (S n))) by lia.
  replace (n + 4)%nat with (S (S (S (S n)))) by lia. done.
Qed.

Lemma in_window_since (now lookback : Z) (df : DataFrame) :
  Forall (λ r, (index r ≤ now)%Z) df →
  in_window now lookback df = Pd.since (now - lookback) df.
Proof.
  unfold in_window, Pd.since. induction 1 as [|r df Hr Hdf IH]; [done|].
  cbn [filter list_filter].
  repeat case_decide; try lia; [f_equal|]; exact IH.
Qed.

(** The percentage the source rounds, on finite prices. *)
Lemma pct_change_float (current base : R) :
  Float.round2 (((Fin current ⊖ Fin base) ⊘ Fin base) ⊗ Fin 100)
  = if decide (base = 0) then
      (if decide (0 < current) then PInf
       else if decide (current < 0) then NInf else NaN)
    else Fin (Float.round2_R (pct_change_R current base)).
Proof.
  unfold pct_change_R. cbn.
  destruct (decide (base = 0)) as [->|Hb]; [|done].
  repeat case_decide; try lra; cbn; try done.
  all: repeat case_decide; try lra; done.
Qed.

Lemma change_entry_spec (df : DataFrame) (current : R) (lookback now : Z) :
  match Pd.since (now - lookback) df with
  | r :: _ :: _ =>
      base_price now lookback df = Some (price_usd r)
      ∧ change_entry df (Fin current) lookback now
        = Some (Float.round2
                  (((Fin current ⊖ Fin (price_usd r)) ⊘ Fin (price_usd r)) ⊗ Fin 100))
  | _ => change_entry df (Fin current) lookback now = None
  end.
Proof.
  unfold change_entry, base_price, Pd.since.
  by destruct (filter _ df) as [|r [|r' data]].
Qed.

Lemma percentage_changes_lookup (df : DataFrame) (p : R) (clk : clock)
    (n k : nat) (key : string) (L : Z) :
  last (prices df) = Some p →
  lookbacks !! k = Some (key, L) →
  ∃ changes,
    calculate_percentage_changes df clk n = (Ok changes, (n + 4)%nat)
    ∧ changes !! key = Some (change_entry df (Fin p) L (clk (n + k)%nat)).
Proof.
  intros Hlast Hk. eexists. split; [by apply calculate_percentage_changes_run|].
  destruct k as [|[|[|[|k]]]]; cbn in Hk; simplify_eq; by simplify_map_eq.
Qed.

Lemma percentage_changes_general (df : DataFrame) (clk : clock) (n k : nat)
    (key : string) (L : Z) :
  lookbacks !! k = Some (key, L) →
  let now := clk (n + k)%nat in
  Forall (λ r, (index r ≤ now)%Z) df →
  ∃ changes reads,
    calculate_percentage_changes df clk n = (Ok changes, reads)
    ∧ ((2 ≤ length (in_window now L df))%nat →
        ∃ current base v,
          last (prices df) = Some current
          ∧ base_price now L df = Some base
          ∧ changes !! key = Some (Some v)
          ∧ (base ≠ 0 → v = Fin (Float.round2_R (pct_change_R current base)))
          ∧ (base = 0 →
              v = if decide (0 < current) then PInf
                  else if decide (current < 0) then NInf else NaN))
    ∧ ((length (in_window now L df) < 2)%nat → unavailable (changes !! key)).
Proof.
  intros Hk now Hnow. rewrite (in_window_since _ _ _ Hnow).
  destruct (last (prices df)) as [p|] eqn:Hlast.
  2:{ apply last_None in Hlast. destruct df; [|done].
      exists ∅, n. split_and!; [done|cbn; lia|]. intros _. by left. }
  destruct (percentage_changes_lookup df p clk n k key L Hlast Hk)
    as (changes & Hrun & Hlook).
  exists changes, (n + 4)%nat. split; [done|]. rewrite Hlook. fold now.
  pose proof (change_entry_spec df p L now) as Hspec.
  destruct (Pd.since (now - L) df) as [|r [|r' data]]; cbn [length].
  - split; [lia|]. intros _. right. by rewrite Hspec.
  - split; [lia|]. intros _. right. by rewrite Hspec.
  - destruct Hspec as [Hbase ->]. split; [|lia]. intros _.
    eexists p, (price_usd r), _. split_and!; [done|done|done| |].
    + intros Hb. by rewrite pct_change_float, decide_False.
    + intros Hb. by rewrite pct_change_float, decide_True.
Qed.

Lemma change_1h_two_hourly (n : nat) :
  ∃ changes reads,
    calculate_percentage_changes two_hourly (λ _, hour) n = (Ok changes, reads)
    ∧ changes !! "change_1h" = Some (Some (Fin 10)).
Proof.
  destruct (percentage_changes_lookup two_hourly 110 (λ _, hour) n 0
              "change_1h" (timedelta 0 1) eq_refl eq_refl) as (changes & Hrun & Hlook).
  exists changes, (n + 4)%nat. split; [done|]. rewrite Hlook.
  do 2 f_equal. unfold change_entry.
  replace (Pd.since (hour - timedelta 0 1) two_hourly) with two_hourly
    by (by vm_compute).
  cbn. destruct (decide (100 = 0)) as [|_]; [lra|]. cbn. do 2 f_equal.
  replace ((110 + - (100)) / 100 * 100) with (IZR 1000 / 100) by lra.
  rewrite round2_R_cents. lra.
Qed.



(** ** Scaling the prices *)

Lemma since_scale (c : R) (t : Z) (df : DataFrame) :
  Pd.since t (scale c df) = scale c (Pd.since t df).
Proof.
  unfold Pd.since, scale. induction df as [|r df IH]; [done|].
  cbn [map filter list_filter index]. case_decide; cbn [map]; [f_equal|]; exact IH.
Qed.

Lemma prices_scale (c : R) (df : DataFrame) :
  prices (scale c df) = map (Rmult c) (prices df).
Proof. unfold prices, scale. rewrite !map_map. done. Qed.

Lemma pct_change_float_scale (c current base : R) :
  0 < c →
  Float.round2 (((Fin (c * current) ⊖ Fin (c * base)) ⊘ Fin (c * base)) ⊗ Fin 100)
  = Float.round2 (((Fin current ⊖ Fin base) ⊘ Fin base) ⊗ Fin 100).
Proof.
  intros Hc. rewrite !pct_change_float.
  destruct (decide (base = 0)) as [->|Hb].
  - rewrite decide_True by lra. repeat case_decide; done || nra.
  - rewrite decide_False by nra. do 2 f_equal.
    unfold pct_change_R. field. split; lra.
Qed.

Lemma change_entry_scale (c p : R) (df : DataFrame) (lookback now : Z) :
  0 < c →
  change_entry (scale c df) (Fin (c * p)) lookback now
  = change_entry df (Fin p) lookback now.
Proof.
  intros Hc. unfold change_entry. rewrite since_scale.
  destruct (Pd.since _ df) as [|r [|r' data]]; [done..|].
  cbn [scale map Pd.price_col price_usd]. by rewrite pct_change_float_scale.
Qed.



(** ** Minimum and maximum *)

Lemma dropna_Fin (l : list R) : Pd.dropna (map Fin l) = map Fin l.
Proof.
  unfold Pd.dropna. induction l as [|a l IH]; [done|].
  cbn [map filter list_filter]. rewrite decide_True by done. f_equal. exact IH.
Qed.

Lemma argmin_row_spec (r : row) (rows : list row) :
  argmin_row r rows ∈ r :: rows
  ∧ ∀ q, q ∈ r :: rows → price_usd (argmin_row r rows) <= price_usd q.
Proof.
  unfold argmin_row. revert r. induction rows as [|x rows IH]; intros r.
  { cbn. split; [left|]. intros q ->%list_elem_of_singleton. lra. }
  cbn [foldl]. case_bool_decide as Hlt.
  - destruct (IH x) as [Hin Hle]. split; [by right|].
    intros q [->|Hq]%elem_of_cons; [|by apply Hle].
    specialize (Hle x ltac:(left)). lra.
  - destruct (IH r) as [Hin Hle]. split.
    + apply elem_of_cons in Hin as [->|Hin]; [left|right; by right].
    + intros q [->|[->|Hq]%elem_of_cons]%elem_of_cons.
      * apply Hle. left.
      * specialize (Hle r ltac:(left)). lra.
      * apply Hle. by right.
Qed.

Lemma argmax_row_spec (r : row) (rows : list row) :
  argmax_row r rows ∈ r :: rows
  ∧ ∀ q, q ∈ r :: rows → price_usd q <= price_usd (argmax_row r rows).
Proof.
  unfold argmax_row. revert r. induction rows as [|x rows IH]; intros r.
  { cbn. split; [left|]. intros q ->%list_elem_of_singleton. lra. }
  cbn [foldl]. case_bool_decide as Hlt.
  - destruct (IH x) as [Hin Hle]. split; [by right|].
    intros q [->|Hq]%elem_of_cons; [|by apply Hle].
    specialize (Hle x ltac:(left)). lra.
  - destruct (IH r) as [Hin Hle]. split.
    + apply elem_of_cons in Hin as [->|Hin]; [left|right; by right].
    + intros q [->|[->|Hq]%elem_of_cons]%elem_of_cons.
      * apply Hle. left.
      * specialize (Hle r ltac:(left)). lra.
      * apply Hle. by right.
Qed.

Lemma min_price_col (r : row) (rows : list row) :
  Pd.min (Pd.price_col (r :: rows)) = Fin (price_usd (argmin_row r rows)).
Proof.
  unfold Pd.min. rewrite price_col_prices, dropna_Fin.
  unfold prices, argmin_row. cbn [map]. revert r.
  induction rows as [|x rows IH]; intros r; [done|].
  cbn [map foldl Float.ltb]. case_bool_decide; apply IH.
Qed.

Lemma max_price_col (r : row) (rows : list row) :
  Pd.max (Pd.price_col (r :: rows)) = Fin (price_usd (argmax_row r rows)).
Proof.
  unfold Pd.max. rewrite price_col_prices, dropna_Fin.
  unfold prices, argmax_row. cbn [map]. revert r.
  induction rows as [|x rows IH]; intros r; [done|].
  cbn [map foldl Float.ltb]. case_bool_decide; apply IH.
Qed.

Lemma price_items_notna (df : DataFrame) :
  filter (λ p : instant * float, Float.isna p.2 = false) (Pd.price_items df)
  = Pd.price_items df.
Proof.
  unfold Pd.price_items. induction df as [|a l IH]; [done|].
  cbn [map filter list_filter]. rewrite decide_True by done. f_equal. exact IH.
Qed.

Lemma idxmin_price_items (r : row) (rows : list row) :
  Pd.idxmin (Pd.price_items (r :: rows)) = Ok (index (argmin_row r rows)).
Proof.
  unfold Pd.idxmin. rewrite price_items_notna.
  unfold Pd.price_items, argmin_row. cbn [map]. f_equal.
  change (index (foldl _ r rows))
    with ((λ r, (index r, Fin (price_usd r)))
            (foldl (λ best q, if bool_decide (price_usd q < price_usd best)
                              then q else best) r rows)).1.
  f_equal. revert r.
  induction rows as [|x rows IH]; intros r; [done|].
  cbn [map foldl Float.ltb snd]. case_bool_decide; apply IH.
Qed.

Lemma idxmax_price_items (r : row) (rows : list row) :
  Pd.idxmax (Pd.price_items (r :: rows)) = Ok (index (argmax_row r rows)).
Proof.
  unfold Pd.idxmax. rewrite price_items_notna.
  unfold Pd.price_items, argmax_row. cbn [map]. f_equal.
  change (index (foldl _ r rows))
    with ((λ r, (index r, Fin (price_usd r)))
            (foldl (λ best q, if bool_decide (price_usd best < price_usd q)
                              then q else best) r rows)).1.
  f_equal. revert r.
  induction rows as [|x rows IH]; intros r; [done|].
  cbn [map foldl Float.ltb snd]. case_bool_decide; apply IH.
Qed.

(** What [get_min_max_values] returns on a frame that is not empty. *)
Lemma get_min_max_values_run (df : DataFrame) (days : Z) (clk : clock) (n : nat) :
  df ≠ [] →
  get_min_max_values df days clk n
  = (Ok match within_last (clk n) days df with
        | [] => None
        | r :: rows =>
            Some {| min_price := Fin (Float.round2_R (price_usd (argmin_row r rows)));
                    max_price := Fin (Float.round2_R (price_usd (argmax_row r rows)));
                    min_time := strftime_minute (index (argmin_row r rows));
                    max_time := strftime_minute (index (argmax_row r rows)) |}
        end, S n).
Proof.
  intros Hdf. unfold get_min_max_values.
  change (within_last (clk n) days df)
    with (Pd.since (clk n - timedelta days 0) df).
  destruct df as [|r0 df0]; [done|]. cbn [Pd.empty].
  rewrite M_bind_run. cbn [datetime_now].
  destruct (Pd.since _ (r0 :: df0)) as [|r rows]; [done|]. cbn [Pd.empty].
  rewrite M_bind_run, lift_run, idxmin_price_items.
  rewrite M_bind_run, lift_run, idxmax_price_items.
  by rewrite M_ret_run, min_price_col, max_price_col.
Qed.

Lemma within_last_cases (df : DataFrame) (days : Z) (clk : clock) (n : nat) :
  match within_last (clk n) days df with
  | [] => ∃ reads, get_min_max_values df days clk n = (Ok None, reads)
  | r :: rows =>
      get_min_max_values df days clk n
      = (Ok (Some {|
           min_price := Fin (Float.round2_R (price_usd (argmin_row r rows)));
           max_price := Fin (Float.round2_R (price_usd (argmax_row r rows)));
           min_time := strftime_minute (index (argmin_row r rows));
           max_time := strftime_minute (index (argmax_row r rows)) |}), S n)
  end.
Proof.
  destruct df as [|r0 df0]; [by exists n|].
  rewrite (get_min_max_values_run (r0 :: df0)) by done.
  destruct (within_last _ _ _); [by eexists|done].
Qed.




(** ** RSI *)

Lemma zip_with_sub_Fin (l1 l2 : list R) :
  zip_with (λ cur prev, cur ⊖ prev) (map Fin l1) (map Fin l2)
  = map Fin (zip_with Rminus l1 l2).
Proof.
  revert l2. induction l1 as [|a l1 IH]; intros [|b l2]; [done..|].
  cbn [map zip_with]. f_equal. apply IH.
Qed.

Lemma diff_Fin (p : R) (ps : list R) :
  Pd.diff (map Fin (p :: ps)) = NaN :: map Fin (deltas (p :: ps)).
Proof.
  unfold Pd.diff, deltas. cbn [map tail]. f_equal.
  apply (zip_with_sub_Fin ps (p :: ps)).
Qed.

Lemma gains_Fin (ds : list R) :
  Pd.where_ (λ d, Float.gtb d (Fin 0)) (Fin 0) (NaN :: map Fin ds)
  = map Fin (0 :: map gain_of ds).
Proof.
  unfold Pd.where_. cbn [map Float.gtb Float.ltb]. f_equal.
  induction ds as [|d ds IH]; [done|]. cbn [map]. f_equal; [|exact IH].
  unfold gain_of. cbn. by case_bool_decide; case_decide.
Qed.

Lemma losses_Fin (ds : list R) :
  map Float.neg (Pd.where_ (λ d, Float.ltb d (Fin 0)) (Fin 0) (NaN :: map Fin ds))
  = map Fin (0 :: map loss_of ds).
Proof.
  unfold Pd.where_. cbn [map Float.ltb Float.neg]. rewrite Ropp_0. f_equal.
  induction ds as [|d ds IH]; [done|]. cbn [map]. f_equal; [|exact IH].
  unfold loss_of. cbn. case_bool_decide; case_decide; try done.
  cbn. by rewrite Ropp_0.
Qed.

Lemma zip_with_map_same {A B C D} (h : B → C → D) (g1 : A → B) (g2 : A → C)
    (l : list A) :
  zip_with h (map g1 l) (map g2 l) = map (λ i, h (g1 i) (g2 i)) l.
Proof. induction l as [|a l IH]; [done|]. cbn. by rewrite IH. Qed.

Lemma last_n_cons {A} (n : nat) (x : A) (l : list A) :
  (n ≤ length l)%nat → last_n n (x :: l) = last_n n l.
Proof.
  intros Hn. unfold last_n. cbn [length].
  by replace (S (length l) - n)%nat with (S (length l - n)) by lia.
Qed.

Lemma deltas_length (ps : list R) : length (deltas ps) = (length ps - 1)%nat.
Proof.
  unfold deltas. rewrite length_zip_with. destruct ps; cbn; lia.
Qed.

(** The last value of a series computed position by position from two
    rolling means over series of one length. *)
Lemma rolling_pair_last (w : Z) (s1 s2 : Series) (f : float → float → float) :
  (0 ≤ w ≤ Z.of_nat (length s1))%Z → s1 ≠ [] → length s1 = length s2 →
  (r1 ← Pd.rolling_mean w s1; r2 ← Pd.rolling_mean w s2;
   Pd.iloc_last (zip_with f r1 r2))
  = Ok (f (Pd.mean (last_n (Z.to_nat w) s1)) (Pd.mean (last_n (Z.to_nat w) s2))).
Proof.
  intros Hw Hs Hlen. unfold Pd.rolling_mean.
  destruct (decide (w < 0)%Z) as [|_]; [lia|].
  cbn [mbind result_bind]. rewrite <-Hlen, zip_with_map_same.
  destruct s1 as [|x s1]; [done|]. cbn [length] in *.
  rewrite iloc_last_map_seq.
  destruct (decide (S (length s1) < Z.to_nat w)%nat) as [|_]; [lia|].
  unfold last_n. rewrite <-Hlen. cbn [length].
  rewrite !take_ge; [done|rewrite length_drop; lia|rewrite length_drop; cbn; lia].
Qed.

(** The last value of [rsi] on a series of more than [period] values. *)
Lemma calculate_rsi_run (df : DataFrame) (period : Z) :
  (1 ≤ period)%Z → (period + 1 ≤ Z.of_nat (length df))%Z →
  calculate_rsi df period
  = Ok (let final := rsi_final (avg_gain (Z.to_nat period) (prices df))
                               (avg_loss (Z.to_nat period) (prices df)) in
        if Float.isna final then None else Some (Float.round2 final)).
Proof.
  intros Hp Hlen. unfold calculate_rsi. rewrite decide_False by lia.
  rewrite price_col_prices.
  assert (length (prices df) = length df) as Hpl by apply length_map.
  destruct (prices df) as [|p ps] eqn:Eps; [cbn in Hpl; lia|].
  rewrite diff_Fin, gains_Fin, losses_Fin.
  set (gs := map gain_of (deltas (p :: ps))).
  set (ls := map loss_of (deltas (p :: ps))).
  assert (length gs = length ps) as Hgs.
  { unfold gs. rewrite length_map, deltas_length. cbn. lia. }
  assert (length ls = length ps) as Hls.
  { unfold ls. rewrite length_map, deltas_length. cbn. lia. }
  cbn [length] in Hpl.
  pose proof (rolling_pair_last period (map Fin (0 :: gs)) (map Fin (0 :: ls))
                (λ g l, Fin 100 ⊖ (Fin 100 ⊘ (Fin 1 ⊕ (g ⊘ l))))) as Hroll.
  ospecialize (Hroll _ _ _).
  { rewrite length_map. cbn [length]. lia. }
  { done. }
  { rewrite !length_map. cbn [length]. lia. }
  destruct (Pd.rolling_mean period (map Fin (0 :: gs))) as [gain|e];
    cbn [mbind result_bind] in Hroll |- *; [|done].
  destruct (Pd.rolling_mean period (map Fin (0 :: ls))) as [loss|e];
    cbn [mbind result_bind] in Hroll |- *; [|done].
  assert (map (λ x, Fin 100 ⊖ (Fin 100 ⊘ (Fin 1 ⊕ x))) (zip_with Float.div gain loss)
          = zip_with (λ g l, Fin 100 ⊖ (Fin 100 ⊘ (Fin 1 ⊕ (g ⊘ l)))) gain loss) as ->.
  { clear. revert loss. induction gain as [|g gain IH]; intros [|l loss]; [done..|].
    cbn [zip_with map]. f_equal. apply IH. }
  rewrite Hroll. cbn [mbind result_bind].
  rewrite !last_n_map, !last_n_cons by lia.
  assert (gs ≠ []) as Hgne by (intros E; rewrite E in Hgs; cbn in Hgs; lia).
  assert (ls ≠ []) as Hlne by (intros E; rewrite E in Hls; cbn in Hls; lia).
  by rewrite !mean_Fin by (apply last_n_nonempty; [lia|done]).
Qed.

Lemma Rsum_nonneg (l : list R) : Forall (λ x, 0 <= x) l → 0 <= Rsum l.
Proof. unfold Rsum. induction 1 as [|x l Hx Hl IH]; cbn; lra. Qed.

Lemma Rmean_nonneg (l : list R) : Forall (λ x, 0 <= x) l → 0 <= Rmean l.
Proof.
  intros Hl. unfold Rmean, Rdiv. apply Rmult_le_pos; [by apply Rsum_nonneg|].
  destruct l as [|x l]; [cbn; rewrite Rinv_0; lra|].
  left. apply Rinv_0_lt_compat, lt_0_INR. cbn. lia.
Qed.

Lemma avg_gain_nonneg (period : nat) (ps : list R) : 0 <= avg_gain period ps.
Proof.
  apply Rmean_nonneg, Forall_drop, Forall_forall.
  intros x (d & -> & _)%list_elem_of_fmap. unfold gain_of. case_decide; lra.
Qed.

Lemma avg_loss_nonneg (period : nat) (ps : list R) : 0 <= avg_loss period ps.
Proof.
  apply Rmean_nonneg, Forall_drop, Forall_forall.
  intros x (d & -> & _)%list_elem_of_fmap. unfold loss_of. case_decide; lra.
Qed.

Lemma Rdiv_nonneg (a b : R) : 0 <= a → 0 < b → 0 <= a / b.
Proof.
  intros Ha Hb. unfold Rdiv. apply Rmult_le_pos; [done|].
  left. by apply Rinv_0_lt_compat.
Qed.

(** The last value of [rsi], by the average loss and the average gain. *)
Lemma rsi_final_cases (gain loss : R) :
  0 <= gain → 0 <= loss →
  rsi_final gain loss
  = if decide (loss = 0) then
      (if decide (0 < gain) then Fin 100 else NaN)
    else Fin (100 - 100 / (1 + gain / loss)).
Proof.
  intros Hg Hl. unfold rsi_final.
  destruct (decide (loss = 0)) as [->|Hne]; cbn.
  - rewrite decide_True by done.
    destruct (decide (0 < gain)); cbn.
    + f_equal. lra.
    + by rewrite decide_False by lra.
  - rewrite decide_False by done. cbn.
    assert (0 <= gain / loss) by (apply Rdiv_nonneg; lra).
    by rewrite decide_False by lra.
Qed.

Lemma rsi_formula_bounds (gain loss : R) :
  0 <= gain → 0 < loss → 0 <= 100 - 100 / (1 + gain / loss) <= 100.
Proof.
  intros Hg Hl.
  assert (0 <= gain / loss) by (apply Rdiv_nonneg; lra).
  assert (0 < / (1 + gain / loss)) by (apply Rinv_0_lt_compat; lra).
  assert (/ (1 + gain / loss) <= / 1) as Hinv
    by (apply Rinv_le_contravar; lra).
  rewrite Rinv_1 in Hinv. unfold Rdiv at 1 3. nra.
Qed.

Lemma round2_R_0 : Float.round2_R 0 = 0.
Proof.
  unfold Float.round2_R. replace (0 * 100) with (IZR 0) by lra.
  rewrite rint_IZR. lra.
Qed.

Lemma round2_R_100 : Float.round2_R 100 = 100.
Proof.
  unfold Float.round2_R. replace (100 * 100) with (IZR 10000) by lra.
  rewrite rint_IZR. lra.
Qed.

(** What [calculate_rsi] returns for the period 14. *)
Lemma calculate_rsi_14 (df : DataFrame) :
  calculate_rsi df 14
  = Ok (if decide (length df < 15)%nat then None
        else if decide (avg_loss 14 (prices df) = 0) then
          (if decide (0 < avg_gain 14 (prices df)) then Some (Fin 100) else None)
        else Some (Fin (Float.round2_R
               (100 - 100 / (1 + avg_gain 14 (prices df) / avg_loss 14 (prices df)))))).
Proof.
  destruct (decide (length df < 15)%nat) as [Hlt|Hge].
  { unfold calculate_rsi. by rewrite decide_True by lia. }
  rewrite calculate_rsi_run by lia. change (Z.to_nat 14) with 14%nat.
  cbv zeta. rewrite rsi_final_cases by (apply avg_gain_nonneg || apply avg_loss_nonneg).
  repeat case_decide; cbn [Float.isna Float.round2]; try done.
  by rewrite round2_R_100.
Qed.

Lemma avg_gain_rising15 : avg_gain 14 (prices rising15) = 1.
Proof.
  cbv [avg_gain prices rising15 obs map price_usd deltas tail zip_with last_n
       length drop Nat.sub gain_of Rmean Rsum foldr INR].
  repeat (case_decide; [|lra]). lra.
Qed.

Lemma avg_loss_rising15 : avg_loss 14 (prices rising15) = 0.
Proof.
  cbv [avg_loss prices rising15 obs map price_usd deltas tail zip_with last_n
       length drop Nat.sub loss_of Rmean Rsum foldr INR].
  repeat (case_decide; [lra|]). lra.
Qed.

Lemma calculate_rsi_rising15 : calculate_rsi rising15 14 = Ok (Some (Fin 100)).
Proof.
  rewrite calculate_rsi_14, avg_gain_rising15, avg_loss_rising15.
  rewrite decide_False by (cbn; lia).
  rewrite decide_True by done. by rewrite decide_True by lra.
Qed.






(** ** Volatility *)

Lemma zip_with_return_Fin (l1 l2 : list R) :
  Forall (λ p, p ≠ 0) l2 →
  zip_with (λ cur prev, cur ⊘ prev ⊖ Fin 1) (map Fin l1) (map Fin l2)
  = map Fin (zip_with (λ cur prev, cur / prev - 1) l1 l2).
Proof.
  intros Hl2. revert l1. induction Hl2 as [|b l2 Hb Hl2 IH]; intros [|a l1]; [done..|].
  cbn [map zip_with]. f_equal; [|apply IH].
  cbn. by rewrite decide_False.
Qed.

Lemma pct_change_Fin (ps : list R) :
  ps ≠ [] → Forall (λ p, p ≠ 0) ps →
  Pd.pct_change (map Fin ps) = NaN :: map Fin (returns ps).
Proof.
  intros Hne Hps. destruct ps as [|p ps]; [done|].
  unfold Pd.pct_change, returns. cbn [map tail]. f_equal.
  by apply (zip_with_return_Fin ps (p :: ps)).
Qed.

Lemma returns_length (ps : list R) : length (returns ps) = (length ps - 1)%nat.
Proof. unfold returns. rewrite length_zip_with. destruct ps; cbn; lia. Qed.

Lemma Rsum_squares_nonneg (m : R) (xs : list R) :
  0 <= Rsum (map (λ x, (x - m) * (x - m)) xs).
Proof.
  apply Rsum_nonneg, Forall_forall.
  intros y (x & -> & _)%list_elem_of_fmap. cbv beta.
  pose proof (Rle_0_sqr (x - m)) as H. by unfold Rsqr in H.
Qed.

(** [std] on finite values is the sample standard deviation. *)
Lemma std_Fin (xs : list R) :
  (2 ≤ length xs)%nat → Pd.std (map Fin xs) = Fin (sample_std xs).
Proof.
  intros Hlen. unfold Pd.std. rewrite dropna_Fin, length_map.
  rewrite decide_False by lia. cbv zeta.
  assert (1 < INR (length xs)) as Hn.
  { change 1 with (INR 1). apply lt_INR. lia. }
  rewrite sum_Fin. cbn [Float.div]. rewrite decide_False by lra.
  fold (Rmean xs). rewrite map_map.
  assert (map (λ x, (Fin (Rmean xs) ⊖ Fin x) ⊗ (Fin (Rmean xs) ⊖ Fin x)) xs
          = map Fin (map (λ x, (x - Rmean xs) * (x - Rmean xs)) xs)) as ->.
  { rewrite map_map. apply map_ext. intros x. cbn. f_equal. ring. }
  rewrite sum_Fin. cbn [Float.div]. rewrite decide_False by lra.
  pose proof (Rsum_squares_nonneg (Rmean xs) xs) as Hsq.
  cbn [Float.sqrt]. rewrite decide_False; [done|].
  apply Rle_not_lt, Rdiv_nonneg; lra.
Qed.

Lemma dropna_NaN_Fin (xs : list R) : Pd.dropna (NaN :: map Fin xs) = map Fin xs.
Proof.
  unfold Pd.dropna. cbn [filter list_filter]. rewrite decide_False by done.
  apply dropna_Fin.
Qed.

(** What [calculate_volatility] returns on three or more prices, none of
    them zero. *)
Lemma calculate_volatility_run (df : DataFrame) (days : Z) :
  (3 ≤ length df)%nat → Forall (λ p, p ≠ 0) (prices df) →
  calculate_volatility df days
  = Fin (Float.round2_R (sample_std (returns (prices df)) * sqrt 24 * 100)).
Proof.
  intros Hlen Hnz. unfold calculate_volatility. rewrite decide_False by lia.
  assert (length (prices df) = length df) as Hpl by apply length_map.
  rewrite price_col_prices, pct_change_Fin;
    [|intros E; rewrite E in Hpl; cbn in Hpl; lia|done].
  rewrite dropna_NaN_Fin, std_Fin by (rewrite returns_length; lia).
  cbn [Float.sqrt]. rewrite decide_False by lra. done.
Qed.

Lemma std_nonneg (s : Series) (x : R) : Pd.std s = Fin x → 0 <= x.
Proof.
  unfold Pd.std. case_decide; [done|]. cbv zeta.
  destruct (_ ⊘ _) as [r| | |]; cbn; try done.
  case_decide; [done|]. intros [= <-]. apply sqrt_pos.
Qed.

Lemma mul_Fin_inv (x y : float) (v : R) :
  x ⊗ y = Fin v → ∃ a b, x = Fin a ∧ y = Fin b ∧ v = a * b.
Proof.
  destruct x as [a| | |], y as [b| | |]; cbn;
    try (intros [= <-]; by eauto); repeat case_decide; done.
Qed.

Lemma round2_Fin_inv (x : float) (v : R) :
  Float.round2 x = Fin v → ∃ a, x = Fin a ∧ v = Float.round2_R a.
Proof. destruct x; cbn; [intros [= <-]; by eauto|done..]. Qed.

Lemma calculate_volatility_nonneg (df : DataFrame) (days : Z) (v : R) :
  calculate_volatility df days = Fin v → 0 <= v.
Proof.
  unfold calculate_volatility. case_decide; [intros [= <-]; lra|].
  intros (a & (b & c & (s & q & Hs & Hq & ->)%mul_Fin_inv & [= <-] & ->)%mul_Fin_inv
          & ->)%round2_Fin_inv.
  apply std_nonneg in Hs. cbn [Float.sqrt] in Hq.
  rewrite decide_False in Hq by lra. injection Hq as <-.
  rewrite <-round2_R_0. apply round2_R_mono.
  pose proof (sqrt_pos 24). nra.
Qed.

Lemma Rsum_zero (xs : list R) : Forall (λ x, x = 0) xs → Rsum xs = 0.
Proof. unfold Rsum. induction 1 as [|x xs -> _ IH]; cbn; lra. Qed.

Lemma sample_std_zero (xs : list R) :
  Forall (λ x, x = 0) xs → sample_std xs = 0.
Proof.
  intros Hxs. unfold sample_std.
  assert (Rmean xs = 0) as -> by (unfold Rmean; rewrite Rsum_zero by done; lra).
  rewrite Rsum_zero.
  - unfold Rdiv. rewrite Rmult_0_l. apply sqrt_0.
  - apply Forall_fmap. eapply Forall_impl; [done|]. intros x ->. cbn. lra.
Qed.

Lemma returns_constant (c : R) (ps : list R) :
  c ≠ 0 → Forall (λ p, p = c) ps → Forall (λ x, x = 0) (returns ps).
Proof.
  intros Hc Hps. unfold returns.
  assert (Forall (λ p, p = c) (tail ps)) as Ht by (destruct Hps; by cbn).
  revert Ht Hps. generalize (tail ps) as l1. intros l1 Hl1. revert ps.
  induction Hl1 as [|a l1 -> _ IH]; intros ps Hps; [by cbn|].
  destruct Hps as [|b ps -> Hps]; cbn [zip_with]; [done|].
  constructor; [by field|by apply IH].
Qed.

Lemma std_short (s : Series) : (length s ≤ 1)%nat → Pd.std s = NaN.
Proof.
  intros Hlen. unfold Pd.std. rewrite decide_True; [done|].
  etrans; [apply length_filter|done].
Qed.

(** On two observations there is one return, and the sample standard
    deviation of one value is NaN. *)
Lemma calculate_volatility_two (df : DataFrame) (days : Z) :
  length df = 2%nat → Forall (λ p, p ≠ 0) (prices df) →
  calculate_volatility df days = NaN.
Proof.
  intros Hlen Hnz. unfold calculate_volatility. rewrite decide_False by lia.
  assert (length (prices df) = length df) as Hpl by apply length_map.
  rewrite price_col_prices, pct_change_Fin;
    [|intros E; rewrite E in Hpl; cbn in Hpl; lia|done].
  rewrite dropna_NaN_Fin, std_short; [done|].
  rewrite length_map, returns_length. lia.
Qed.

(** When every price is zero, every return is NaN and is dropped. *)
Lemma dropna_pct_change_zero (l1 l2 : list R) :
  Forall (λ p, p = 0) l1 → Forall (λ p, p = 0) l2 →
  Pd.dropna (zip_with (λ cur prev, cur ⊘ prev ⊖ Fin 1) (map Fin l1) (map Fin l2))
  = [].
Proof.
  intros Hl1. revert l2. unfold Pd.dropna.
  induction Hl1 as [|a l1 -> _ IH]; intros l2 Hl2; [done|].
  destruct Hl2 as [|b l2 -> Hl2]; [done|].
  cbn [map zip_with filter list_filter].
  assert (Fin 0 ⊘ Fin 0 ⊖ Fin 1 = NaN) as ->.
  { cbn. rewrite decide_True by done. by rewrite !decide_False by lra. }
  rewrite decide_False by done. by apply IH.
Qed.

Lemma calculate_volatility_zero_prices (df : DataFrame) (days : Z) :
  (2 ≤ length df)%nat → Forall (λ p, p = 0) (prices df) →
  calculate_volatility df days = NaN.
Proof.
  intros Hlen Hz. unfold calculate_volatility. rewrite decide_False by lia.
  rewrite price_col_prices.
  assert (Pd.dropna (Pd.pct_change (map Fin (prices df))) = []) as ->; [|done].
  destruct (prices df) as [|p ps]; [done|].
  unfold Pd.pct_change. cbn [map]. unfold Pd.dropna.
  cbn [filter list_filter]. rewrite decide_False by done.
  apply (dropna_pct_change_zero ps (p :: ps)); [|done].
  by inversion Hz.
Qed.




(** ** The whole report *)

Lemma calculate_moving_averages_default_ok (df : DataFrame) :
  ∃ mas, calculate_moving_averages df default_windows = Ok mas.
Proof.
  destruct (moving_averages_general df default_windows 7%Z)
    as (mas & Hmas & _); [lia|by left| |by exists mas].
  unfold default_windows. repeat constructor; lia.
Qed.

Lemma iloc_last_ok {A} (l : list A) : l ≠ [] → ∃ x, Pd.iloc_last l = Ok x.
Proof.
  intros Hl. unfold Pd.iloc_last. destruct (last l) as [x|] eqn:E; [by exists x|].
  by apply last_None in E.
Qed.

Lemma generate_comprehensive_analytics_run (sym : string) (df : DataFrame)
    (price : R) (mas : gmap string (option float)) (rsi : option float)
    (cap vol : float) (clk : clock) (n : nat) :
  last (prices df) = Some price →
  calculate_moving_averages df default_windows = Ok mas →
  calculate_rsi df 14 = Ok rsi →
  Pd.iloc_last (map market_cap df) = Ok cap →
  Pd.iloc_last (map volume_24h df) = Ok vol →
  generate_comprehensive_analytics sym df clk n
  = (Ok (Some (report_at sym df price mas rsi cap vol clk n)), (n + 7)%nat).
Proof.
  intros Hlast Hmas Hrsi Hcap Hvol. unfold generate_comprehensive_analytics.
  destruct df as [|r0 df0]; [done|]. cbn [Pd.empty].
  set (df := r0 :: df0) in *. assert (df ≠ []) as Hne by done.
  rewrite M_bind_run, lift_run, iloc_last_price_col, Hlast.
  rewrite M_bind_run. cbn [datetime_now].
  rewrite M_bind_run, lift_run, Hmas.
  rewrite M_bind_run, (calculate_percentage_changes_run df price clk (S n) Hlast).
  rewrite M_bind_run, get_min_max_values_run by done.
  rewrite M_bind_run, get_min_max_values_run by done.
  rewrite M_bind_run, lift_run, Hrsi.
  rewrite M_bind_run, lift_run, Hcap.
  rewrite M_bind_run, lift_run, Hvol.
  rewrite M_ret_run. unfold report_at, changes_at, min_max_entry.
  replace (S n + 0)%nat with (n + 1)%nat by lia.
  replace (S n + 1)%nat with (n + 2)%nat by lia.
  replace (S n + 2)%nat with (n + 3)%nat by lia.
  replace (S n + 3)%nat with (n + 4)%nat by lia.
  replace (S n + 4)%nat with (n + 5)%nat by lia.
  replace (S (n + 5))%nat with (n + 6)%nat by lia.
  replace (S (n + 6))%nat with (n + 7)%nat by lia.
  done.
Qed.

(** On a frame that is not empty the report is computed, with seven reads
    of the clock. *)
Lemma generate_comprehensive_analytics_ok (sym : string) (df : DataFrame)
    (clk : clock) (n : nat) :
  df ≠ [] →
  ∃ price mas rsi cap vol,
    generate_comprehensive_analytics sym df clk n
    = (Ok (Some (report_at sym df price mas rsi cap vol clk n)), (n + 7)%nat).
Proof.
  intros Hne.
  destruct (last (prices df)) as [price|] eqn:Hlast.
  2:{ apply last_None in Hlast. by destruct df. }
  destruct (calculate_moving_averages_default_ok df) as [mas Hmas].
  destruct (iloc_last_ok (map market_cap df)) as [cap Hcap]; [by destruct df|].
  destruct (iloc_last_ok (map volume_24h df)) as [vol Hvol]; [by destruct df|].
  eexists price, mas, _, cap, vol.
  apply generate_comprehensive_analytics_run; try done. apply calculate_rsi_14.
Qed.


(** C7.  [calculate_volatility] does not look at its [days] argument: the
    returns are those of the whole series supplied, and the two volatility
    entries of a report are equal. *)
Theorem volatility_ignores_days :
  (∀ df days days', calculate_volatility df days = calculate_volatility df days')
  ∧ (∀ df days,
       (2 ≤ length df)%nat →
       calculate_volatility df days
       = Float.round2
           ((Pd.std (Pd.dropna (Pd.pct_change (Pd.price_col df)))
             ⊗ Float.sqrt (Fin 24)) ⊗ Fin 100))
  ∧ (∀ sym df clk n a reads,
       generate_comprehensive_analytics sym df clk n = (Ok (Some a), reads) →
       volatility_7d a = volatility_30d a).
Proof.
  split_and!; [done| |].
  - intros df days Hlen. unfold calculate_volatility. by rewrite decide_False by lia.
  - intros sym [|r df] clk n a reads Hrun; [done|].
    destruct (generate_comprehensive_analytics_ok sym (r :: df) clk n)
      as (price & mas & rsi & cap & vol & Hok); [done|].
    rewrite Hok in Hrun. by injection Hrun as <- _.
Qed.

Lemma volatility_ignores_days_witness :
  ∃ a reads,
    generate_comprehensive_analytics "BTC" closes8 (frozen (7 * day)) 0%nat
    = (Ok (Some a), reads)
    ∧ volatility_7d a = volatility_30d a.
Proof.
  destruct (generate_comprehensive_analytics_ok "BTC" closes8 (frozen (7 * day)) 0%nat)
    as (price & mas & rsi & cap & vol & Hok); [done|].
  eexists _, _. split; [exact Hok|].
  exact (proj2 (proj2 volatility_ignores_days) _ _ _ _ _ _ Hok).
Defined.

(** ** The clock *)

Lemma since_two_hourly_one_hour :
  Pd.since (hour - timedelta 0 1) two_hourly = two_hourly
  ∧ Pd.since (2 * hour - timedelta 0 1) two_hourly = [obs hour 110].
Proof. split; by vm_compute. Qed.

Lemma change_1h_two_hourly_entries :
  change_entry two_hourly (Fin 110) (timedelta 0 1) hour = Some (Fin 10)
  ∧ change_entry two_hourly (Fin 110) (timedelta 0 1) (2 * hour) = None.
Proof.
  destruct since_two_hourly_one_hour as [H1 H2].
  unfold change_entry. rewrite H1, H2. split; [|done].
  cbn. destruct (decide (100 = 0)) as [|_]; [lra|]. cbn. do 2 f_equal.
  replace ((110 + - (100)) / 100 * 100) with (IZR 1000 / 100) by lra.
  rewrite round2_R_cents. lra.
Qed.

Lemma report_two_hourly (clk : clock) :
  ∃ mas,
    generate_comprehensive_analytics "BTC" two_hourly clk 0%nat
    = (Ok (Some (report_at "BTC" two_hourly 110 mas None NaN NaN clk 0%nat)), 7%nat).
Proof.
  destruct (calculate_moving_averages_default_ok two_hourly) as [mas Hmas].
  exists mas. by apply generate_comprehensive_analytics_run.
Qed.

Lemma percentage_changes_agree (df : DataFrame) (clk1 clk2 : clock) (n : nat) :
  (∀ k, (k < 4)%nat → clk1 (n + k)%nat = clk2 (n + k)%nat) →
  calculate_percentage_changes df clk1 n = calculate_percentage_changes df clk2 n.
Proof.
  intros Hclk. destruct (last (prices df)) as [p|] eqn:Hlast.
  - rewrite !(calculate_percentage_changes_run df p _ n Hlast).
    by rewrite !Hclk by lia.
  - apply last_None in Hlast. by destruct df.
Qed.

Lemma min_max_agree (df : DataFrame) (days : Z) (clk1 clk2 : clock) (n : nat) :
  clk1 n = clk2 n →
  get_min_max_values df days clk1 n = get_min_max_values df days clk2 n.
Proof.
  intros Hclk. destruct df as [|r df]; [done|].
  rewrite !get_min_max_values_run by done. by rewrite Hclk.
Qed.

Lemma report_agree (sym : string) (df : DataFrame) (clk1 clk2 : clock) (n : nat) :
  (∀ k, (k < 7)%nat → clk1 (n + k)%nat = clk2 (n + k)%nat) →
  generate_comprehensive_analytics sym df clk1 n
  = generate_comprehensive_analytics sym df clk2 n.
Proof.
  intros Hclk. destruct df as [|r df]; [done|].
  destruct (generate_comprehensive_analytics_ok sym (r :: df) clk1 n)
    as (price & mas & rsi & cap & vol & Hok1); [done|].
  destruct (generate_comprehensive_analytics_ok sym (r :: df) clk2 n)
    as (price' & mas' & rsi' & cap' & vol' & Hok2); [done|].
  rewrite Hok1.
  destruct (last (prices (r :: df))) as [p|] eqn:Hlast.
  2:{ by apply last_None in Hlast. }
  destruct (calculate_moving_averages_default_ok (r :: df)) as [m Hm].
  destruct (iloc_last_ok (map market_cap (r :: df))) as [c Hc]; [done|].
  destruct (iloc_last_ok (map volume_24h (r :: df))) as [v Hv]; [done|].
  rewrite (generate_comprehensive_analytics_run sym (r :: df) p m _ c v clk1 n
             Hlast Hm (calculate_rsi_14 _) Hc Hv) in Hok1.
  rewrite (generate_comprehensive_analytics_run sym (r :: df) p m _ c v clk2 n
             Hlast Hm (calculate_rsi_14 _) Hc Hv).
  rewrite <-Hok1. unfold report_at.
  pose proof (Hclk 0%nat ltac:(lia)) as H0. rewrite Nat.add_0_r in H0.
  by rewrite H0, !Hclk by lia.
Qed.

(** C3, as the code has it.  The instant "now" is not supplied to the
    engine: the code reads the system clock, four times in
    [calculate_percentage_changes], once in [get_min_max_values] and seven
    times for a report.  The results are a function of the series, the
    windows and the instants that these reads return: two runs on one
    series whose reads return the same instants give the same results. *)
Theorem report_determined_by_clock_reads :
  (∀ sym df clk1 clk2 n,
     (∀ k, (k < 7)%nat → clk1 (n + k)%nat = clk2 (n + k)%nat) →
     generate_comprehensive_analytics sym df clk1 n
     = generate_comprehensive_analytics sym df clk2 n)
  ∧ (∀ df clk1 clk2 n,
       (∀ k, (k < 4)%nat → clk1 (n + k)%nat = clk2 (n + k)%nat) →
       calculate_percentage_changes df clk1 n
       = calculate_percentage_changes df clk2 n)
  ∧ (∀ df days clk1 clk2 n,
       clk1 n = clk2 n →
       get_min_max_values df days clk1 n = get_min_max_values df days clk2 n)
  ∧ (∀ sym df clk n,
       df ≠ [] → (generate_comprehensive_analytics sym df clk n).2 = (n + 7)%nat).
Proof.
  split_and!.
  - apply report_agree.
  - apply percentage_changes_agree.
  - apply min_max_agree.
  - intros sym df clk n Hne.
    destruct (generate_comprehensive_analytics_ok sym df clk n Hne)
      as (price & mas & rsi & cap & vol & Hok).
    by rewrite Hok.
Qed.

(** Two clocks that agree on the first seven reads only. *)
Lemma report_determined_by_clock_reads_witness :
  generate_comprehensive_analytics "BTC" two_hourly (frozen hour) 0%nat
  = generate_comprehensive_analytics "BTC" two_hourly
      (λ k, if decide (k < 7)%nat then hour else 0%Z) 0%nat.
Proof.
  apply (proj1 report_determined_by_clock_reads).
  intros k Hk. unfold frozen. cbn. by rewrite decide_True.
Defined.

(** C3 as stated fails: the same series, read when the clock shows the
    instant of the last observation and read one hour later, gives two
    different reports; [change_1h] is 10.0 in the first and [None] in the
    second. *)
Lemma same_series_different_reports :
  ∃ a1 a2 reads1 reads2,
    generate_comprehensive_analytics "BTC" two_hourly (frozen hour) 0%nat
    = (Ok (Some a1), reads1)
    ∧ generate_comprehensive_analytics "BTC" two_hourly (frozen (2 * hour)) 0%nat
      = (Ok (Some a2), reads2)
    ∧ percentage_changes a1 !! "change_1h" = Some (Some (Fin 10))
    ∧ percentage_changes a2 !! "change_1h" = Some None
    ∧ a1 ≠ a2.
Proof.
  destruct (report_two_hourly (frozen hour)) as [mas1 H1].
  destruct (report_two_hourly (frozen (2 * hour))) as [mas2 H2].
  destruct change_1h_two_hourly_entries as [E1 E2].
  eexists _, _, _, _. split; [exact H1|]. split; [exact H2|].
  assert (∀ mas t,
    percentage_changes (report_at "BTC" two_hourly 110 mas None NaN NaN (frozen t) 0%nat)
      !! "change_1h"
    = Some (change_entry two_hourly (Fin 110) (timedelta 0 1) t)) as Hlook.
  { intros mas t. cbn [percentage_changes report_at]. unfold changes_at, frozen.
    by simplify_map_eq. }
  rewrite !Hlook, E1, E2. split_and!; [done|done|].
  intros E. apply (f_equal (λ a, percentage_changes a !! "change_1h")) in E.
  rewrite !Hlook, E1, E2 in E. done.
Qed.

(** * Further properties of the code *)

(** ** More on the moving averages *)

Lemma Rmean_bounds (lo hi : R) (l : list R) :
  l ≠ [] → Forall (λ p, lo <= p <= hi) l → lo <= Rmean l <= hi.
Proof.
  intros Hne Hl. unfold Rmean.
  assert (INR (length l) * lo <= Rsum l <= INR (length l) * hi) as Hs.
  { unfold Rsum. clear Hne. induction Hl as [|p l Hp Hl IH]; [cbn; lra|].
    cbn [length foldr]. rewrite S_INR. lra. }
  assert (0 < INR (length l)) as Hn.
  { apply lt_0_INR. destruct l; [done|cbn; lia]. }
  assert (0 < / INR (length l)) as Hi by by apply Rinv_0_lt_compat.
  unfold Rdiv. split.
  - replace lo with (INR (length l) * lo * / INR (length l)) by (field; lra).
    apply Rmult_le_compat_r; lra.
  - replace hi with (INR (length l) * hi * / INR (length l)) by (field; lra).
    apply Rmult_le_compat_r; lra.
Qed.

(** X1.  On a frame that is not empty and windows that are not negative,
    the dictionary of moving averages has one entry for each window and no
    other. *)
Theorem moving_averages_keys (df : DataFrame) (windows : list Z) :
  df ≠ [] → Forall (λ v, 0 ≤ v)%Z windows →
  ∃ ma_results,
    calculate_moving_averages df windows = Ok ma_results
    ∧ ∀ k, is_Some (ma_results !! k) ↔ ∃ w, w ∈ windows ∧ k = ma_key w.
Proof.
  intros Hne Hpos. unfold calculate_moving_averages.
  destruct df as [|r df']; [done|]. cbn [Pd.empty].
  destruct (moving_averages_loop_spec (r :: df') windows Hne Hpos ∅)
    as (res & Hres & Hin & Hout).
  exists res. split; [done|]. intros k. split.
  - intros Hk. destruct (decide (k ∈ ma_key <$> windows)) as [Hmem|Hn].
    + apply list_elem_of_fmap in Hmem as (w & -> & Hw). by exists w.
    + rewrite Hout in Hk; [by destruct Hk|].
      intros w Hw <-. apply Hn, list_elem_of_fmap. by exists w.
  - intros (w & Hw & ->). rewrite (Hin w Hw). by eexists.
Qed.

Lemma moving_averages_keys_witness :
  ∃ ma_results,
    calculate_moving_averages closes8 [7; 30; 7]%Z = Ok ma_results
    ∧ ∀ k, is_Some (ma_results !! k) ↔ ∃ w, w ∈ [7; 30; 7]%Z ∧ k = ma_key w.
Proof.
  apply (moving_averages_keys closes8 [7; 30; 7]%Z).
  - done.
  - repeat constructor; lia.
Defined.



Lemma rolling_mean_negative (w : Z) (s : Series) :
  (w < 0)%Z → Pd.rolling_mean w s = Raise ValueError.
Proof. intros Hw. unfold Pd.rolling_mean. by rewrite decide_True. Qed.

Lemma moving_averages_loop_negative (df : DataFrame) (windows : list Z) :
  df ≠ [] → Exists (λ v, v < 0)%Z windows →
  ∀ acc, moving_averages_loop df windows acc = Raise ValueError.
Proof.
  intros Hne. induction windows as [|v rest IH]; intros Hex acc.
  { by apply Exists_nil in Hex. }
  cbn [moving_averages_loop].
  destruct (decide (v < 0)%Z) as [Hneg|Hpos].
  { rewrite decide_True by lia. by rewrite rolling_mean_negative. }
  apply Exists_cons in Hex as [?|Hex]; [done|].
  case_decide as Hle; [|by apply IH].
  pose proof (rolling_mean_last v (Pd.price_col df)) as Hr.
  unfold Pd.price_col in Hr at 1. rewrite length_map in Hr.
  ospecialize (Hr _ _); [lia|by destruct df|].
  destruct (Pd.rolling_mean v (Pd.price_col df)) as [rolled|e];
    cbn [mbind result_bind] in Hr |- *; [|done].
  rewrite Hr. cbn [mbind result_bind]. by apply IH.
Qed.

(** X3.  A negative window among the windows makes
    [calculate_moving_averages] raise [ValueError] on every frame that is
    not empty (on the empty frame the windows are not looked at). *)
Theorem moving_averages_negative_window (df : DataFrame) (windows : list Z) :
  Exists (λ v, v < 0)%Z windows →
  calculate_moving_averages df windows
  = if Pd.empty df then Ok ∅ else Raise ValueError.
Proof.
  intros Hex. unfold calculate_moving_averages.
  destruct df as [|r df]; [done|]. cbn [Pd.empty].
  by apply moving_averages_loop_negative.
Qed.

Lemma moving_averages_negative_window_witness :
  calculate_moving_averages closes8 [7; -1; 30]%Z
  = if Pd.empty closes8 then Ok ∅ else Raise ValueError.
Proof.
  apply (moving_averages_negative_window closes8 [7; -1; 30]%Z).
  apply Exists_cons_tl, Exists_cons_hd. lia.
Defined.
(** ** More on the percentage changes *)

Lemma filter_sublist_impl {A} (P Q : A → Prop)
    `{!∀ x, Decision (P x)} `{!∀ x, Decision (Q x)} (l : list A) :
  (∀ x, P x → Q x) → filter P l `sublist_of` filter Q l.
Proof.
  intros HPQ. induction l as [|x l IH]; [done|].
  rewrite !filter_cons. destruct (decide (P x)) as [HP|HP].
  - rewrite decide_True by auto. by constructor.
  - destruct (decide (Q x)); [by constructor|done].
Qed.

(** The rows since an earlier instant include the rows since a later one. *)
Lemma since_sublist (t t' : Z) (df : DataFrame) :
  (t' ≤ t)%Z → Pd.since t df `sublist_of` Pd.since t' df.
Proof.
  intros Ht. apply (filter_sublist_impl (λ r, t ≤ index r)%Z (λ r, t' ≤ index r)%Z).
  intros r. lia.
Qed.

Lemma since_length_mono (t t' : Z) (df : DataFrame) :
  (t' ≤ t)%Z → (length (Pd.since t df) ≤ length (Pd.since t' df))%nat.
Proof. intros Ht. by apply sublist_length, since_sublist. Qed.

Lemma change_entry_available (df : DataFrame) (p : float) (lookback now : Z) :
  is_Some (change_entry df p lookback now)
  ↔ (2 ≤ length (Pd.since (now - lookback) df))%nat.
Proof.
  unfold change_entry, Pd.price_col.
  destruct (Pd.since _ df) as [|r [|r' data]]; cbn; split;
    try lia; try (by intros []); by eexists.
Qed.

(** X4.  The lookbacks nest: when the clock does not advance between the
    reads by more than the difference of two lookbacks, a change that is
    available for the shorter lookback is available for the longer one;
    so with [change_1h] come [change_24h], [change_7d] and
    [change_30d]. *)
Theorem percentage_changes_nest (df : DataFrame) (clk : clock) (n i j : nat)
    (key key' : string) (L L' : Z) (changes : gmap string (option float))
    (reads : nat) :
  lookbacks !! i = Some (key, L) → lookbacks !! j = Some (key', L') →
  (clk (n + j)%nat - L' ≤ clk (n + i)%nat - L)%Z →
  calculate_percentage_changes df clk n = (Ok changes, reads) →
  (∃ v, changes !! key = Some (Some v)) →
  ∃ v', changes !! key' = Some (Some v').
Proof.
  intros Hi Hj Hclk Hrun (v & Hv).
  destruct (last (prices df)) as [p|] eqn:Hlast.
  2:{ apply last_None in Hlast. destruct df; [|done].
      injection Hrun as <- _. by rewrite lookup_empty in Hv. }
  destruct (percentage_changes_lookup df p clk n i key L Hlast Hi)
    as (c1 & Hrun1 & Hlook1).
  destruct (percentage_changes_lookup df p clk n j key' L' Hlast Hj)
    as (c2 & Hrun2 & Hlook2).
  rewrite Hrun in Hrun1, Hrun2. injection Hrun1 as <- _. injection Hrun2 as <- _.
  rewrite Hlook1 in Hv. injection Hv as Hv. rewrite Hlook2.
  assert (is_Some (change_entry df (Fin p) L' (clk (n + j)%nat))) as [v' ->];
    [|by exists v'].
  apply change_entry_available.
  assert (is_Some (change_entry df (Fin p) L (clk (n + i)%nat))) as Hs
    by (rewrite Hv; by eexists).
  apply change_entry_available in Hs.
  pose proof (since_length_mono _ _ df Hclk). lia.
Qed.

Lemma percentage_changes_nest_witness :
  ∃ changes v',
    calculate_percentage_changes two_hourly (frozen hour) 0%nat
    = (Ok changes, 4%nat)
    ∧ changes !! "change_7d" = Some (Some v').
Proof.
  destruct (percentage_changes_lookup two_hourly 110 (frozen hour) 0 0
              "change_1h" (timedelta 0 1) eq_refl eq_refl)
    as (changes & Hrun & Hlook).
  destruct (percentage_changes_nest two_hourly (frozen hour) 0 0 2
              "change_1h" "change_7d" (timedelta 0 1) (timedelta 7 0)
              changes 4%nat eq_refl eq_refl) as [v' Hv'].
  - by vm_compute.
  - exact Hrun.
  - exists (Fin 10). rewrite Hlook. f_equal.
    exact (proj1 change_1h_two_hourly_entries).
  - by exists changes, v'.
Defined.


(** ** More on the extrema *)

Lemma within_last_sublist (t t' days days' : Z) (df : DataFrame) :
  (t' - timedelta days' 0 ≤ t - timedelta days 0)%Z →
  within_last t days df `sublist_of` within_last t' days' df.
Proof. intros Ht. by apply since_sublist. Qed.



(** The fold of [idxmin] keeps the first row of the smallest price. *)
Lemma argmin_row_first (r : row) (rows : list row) :
  ∃ i,
    (r :: rows) !! i = Some (argmin_row r rows)
    ∧ ∀ j q, (j < i)%nat → (r :: rows) !! j = Some q →
        price_usd (argmin_row r rows) < price_usd q.
Proof.
  unfold argmin_row. induction rows as [|x rows IH] using rev_ind.
  { exists 0%nat. split; [done|]. intros; lia. }
  destruct IH as (i & Hi & Hbefore). rewrite foldl_app. cbn [foldl].
  pose proof (argmin_row_spec r rows) as [_ Hle]. unfold argmin_row in Hle.
  assert (i < length (r :: rows))%nat as Hlen by (by eapply lookup_lt_Some).
  case_bool_decide as Hlt.
  - exists (length (r :: rows)). split.
    + change (r :: rows ++ [x]) with ((r :: rows) ++ [x]).
      by rewrite lookup_app_r, Nat.sub_diag by lia.
    + intros j q Hj Hq. change (r :: rows ++ [x]) with ((r :: rows) ++ [x]) in Hq.
      rewrite lookup_app_l in Hq by done.
      apply list_elem_of_lookup_2, Hle in Hq. lra.
  - exists i. change (r :: rows ++ [x]) with ((r :: rows) ++ [x]). split.
    + by rewrite lookup_app_l.
    + intros j q Hj Hq. rewrite lookup_app_l in Hq by lia. by eapply Hbefore.
Qed.

Lemma argmax_row_first (r : row) (rows : list row) :
  ∃ i,
    (r :: rows) !! i = Some (argmax_row r rows)
    ∧ ∀ j q, (j < i)%nat → (r :: rows) !! j = Some q →
        price_usd q < price_usd (argmax_row r rows).
Proof.
  unfold argmax_row. induction rows as [|x rows IH] using rev_ind.
  { exists 0%nat. split; [done|]. intros; lia. }
  destruct IH as (i & Hi & Hbefore). rewrite foldl_app. cbn [foldl].
  pose proof (argmax_row_spec r rows) as [_ Hge]. unfold argmax_row in Hge.
  assert (i < length (r :: rows))%nat as Hlen by (by eapply lookup_lt_Some).
  case_bool_decide as Hlt.
  - exists (length (r :: rows)). split.
    + change (r :: rows ++ [x]) with ((r :: rows) ++ [x]).
      by rewrite lookup_app_r, Nat.sub_diag by lia.
    + intros j q Hj Hq. change (r :: rows ++ [x]) with ((r :: rows) ++ [x]) in Hq.
      rewrite lookup_app_l in Hq by done.
      apply list_elem_of_lookup_2, Hge in Hq. lra.
  - exists i. change (r :: rows ++ [x]) with ((r :: rows) ++ [x]). split.
    + by rewrite lookup_app_l.
    + intros j q Hj Hq. rewrite lookup_app_l in Hq by lia. by eapply Hbefore.
Qed.

(** X7.  The times reported with the extrema are those of the first
    observation of the window that has the smallest price, and of the first
    one that has the largest: every observation of the window before it has
    a larger (smaller) price. *)
Theorem min_max_times_first (df : DataFrame) (days : Z) (clk : clock) (n : nat)
    (mm : min_max) (reads : nat) :
  get_min_max_values df days clk n = (Ok (Some mm), reads) →
  ∃ i rmin k rmax,
    within_last (clk n) days df !! i = Some rmin
    ∧ min_time mm = strftime_minute (index rmin)
    ∧ (∀ j q, (j < i)%nat → within_last (clk n) days df !! j = Some q →
         price_usd rmin < price_usd q)
    ∧ within_last (clk n) days df !! k = Some rmax
    ∧ max_time mm = strftime_minute (index rmax)
    ∧ (∀ j q, (j < k)%nat → within_last (clk n) days df !! j = Some q →
         price_usd q < price_usd rmax).
Proof.
  intros Hrun. pose proof (within_last_cases df days clk n) as Hcases.
  destruct (within_last (clk n) days df) as [|r rows].
  { destruct Hcases as [reads' Hnone]. congruence. }
  rewrite Hcases in Hrun. injection Hrun as <- _. cbn [min_time max_time].
  destruct (argmin_row_first r rows) as (i & Hi & Hbefore).
  destruct (argmax_row_first r rows) as (k & Hk & Hbefore').
  by exists i, (argmin_row r rows), k, (argmax_row r rows).
Qed.

Lemma min_max_times_first_witness :
  ∃ mm i rmin k rmax,
    get_min_max_values closes8 7 (frozen (7 * day)) 0%nat = (Ok (Some mm), 1%nat)
    ∧ within_last (7 * day) 7 closes8 !! i = Some rmin
    ∧ min_time mm = strftime_minute (index rmin)
    ∧ (∀ j q, (j < i)%nat → within_last (7 * day) 7 closes8 !! j = Some q →
         price_usd rmin < price_usd q)
    ∧ within_last (7 * day) 7 closes8 !! k = Some rmax
    ∧ max_time mm = strftime_minute (index rmax)
    ∧ (∀ j q, (j < k)%nat → within_last (7 * day) 7 closes8 !! j = Some q →
         price_usd q < price_usd rmax).
Proof.
  assert (∃ mm, get_min_max_values closes8 7 (frozen (7 * day)) 0%nat
                = (Ok (Some mm), 1%nat)) as [mm Hmm].
  { rewrite get_min_max_values_run by done. unfold frozen.
    replace (within_last (7 * day) 7 closes8) with closes8 by (by vm_compute).
    by eexists. }
  destruct (min_max_times_first closes8 7 (frozen (7 * day)) 0%nat mm 1%nat Hmm)
    as (i & rmin & k & rmax & H).
  by exists mm, i, rmin, k, rmax.
Defined.
(** ** More on the RSI *)

Lemma tail_drop {A} (k : nat) (l : list A) : tail (drop k l) = drop k (tail l).
Proof.
  assert (∀ l' : list A, tail l' = drop 1 l') as Ht by (by intros []).
  rewrite !Ht, !drop_drop. f_equal. lia.
Qed.

Lemma deltas_drop (k : nat) (ps : list R) : deltas (drop k ps) = drop k (deltas ps).
Proof. unfold deltas. by rewrite zip_with_drop, tail_drop. Qed.

Lemma last_n_idemp {A} (n : nat) (l : list A) : last_n n (last_n n l) = last_n n l.
Proof.
  unfold last_n at 1.
  replace (length (last_n n l) - n)%nat with 0%nat; [done|].
  unfold last_n. rewrite length_drop. lia.
Qed.

(** The deltas of the last [n + 1] prices are the last [n] deltas. *)
Lemma deltas_last_n (n : nat) (ps : list R) :
  (S n ≤ length ps)%nat → deltas (last_n (S n) ps) = last_n n (deltas ps).
Proof.
  intros Hlen. unfold last_n. rewrite deltas_drop, deltas_length. f_equal. lia.
Qed.

Lemma avg_gain_local (n : nat) (ps : list R) :
  (S n ≤ length ps)%nat →
  avg_gain n ps = Rmean (map gain_of (deltas (last_n (S n) ps))).
Proof.
  intros Hlen. unfold avg_gain. by rewrite deltas_last_n, last_n_map.
Qed.

Lemma avg_loss_local (n : nat) (ps : list R) :
  (S n ≤ length ps)%nat →
  avg_loss n ps = Rmean (map loss_of (deltas (last_n (S n) ps))).
Proof.
  intros Hlen. unfold avg_loss. by rewrite deltas_last_n, last_n_map.
Qed.

Lemma prices_last_n (n : nat) (df : DataFrame) :
  prices (last_n n df) = last_n n (prices df).
Proof. unfold prices. by rewrite last_n_map. Qed.



Lemma Rsum_zero_inv (l : list R) :
  Forall (λ x, 0 <= x) l → Rsum l = 0 → Forall (λ x, x = 0) l.
Proof.
  unfold Rsum. induction 1 as [|x l Hx Hl IH]; intros Hs; [done|].
  cbn in Hs. pose proof (Rsum_nonneg l Hl) as Hn. unfold Rsum in Hn.
  constructor; [lra|]. apply IH. lra.
Qed.

Lemma Rmean_zero_iff (l : list R) :
  l ≠ [] → Forall (λ x, 0 <= x) l → Rmean l = 0 ↔ Forall (λ x, x = 0) l.
Proof.
  intros Hne Hl. unfold Rmean.
  assert (0 < INR (length l)) as Hn.
  { apply lt_0_INR. destruct l; [done|cbn; lia]. }
  split.
  - intros Hm. apply Rsum_zero_inv; [done|].
    replace (Rsum l) with (Rsum l / INR (length l) * INR (length l))
      by (field; lra).
    rewrite Hm. lra.
  - intros Hz. rewrite Rsum_zero by done. unfold Rdiv. lra.
Qed.

Lemma deltas_zero_iff (ps : list R) :
  Forall (λ d, d = 0) (deltas ps) ↔ ∀ p q, p ∈ ps → q ∈ ps → p = q.
Proof.
  unfold deltas. induction ps as [|a [|b ps] IH].
  - split; [intros _ p q Hp; by apply elem_of_nil in Hp|done].
  - split; [|done]. by intros _ p q ->%list_elem_of_singleton ->%list_elem_of_singleton.
  - cbn [tail zip_with] in *. rewrite Forall_cons, IH. split.
    + intros [Hab Hall] p q Hp Hq.
      assert (∀ x, x ∈ a :: b :: ps → x = b) as Hb.
      { intros x [->|Hx]%elem_of_cons; [lra|]. apply Hall; [done|left]. }
      by rewrite (Hb p Hp), (Hb q Hq).
    + intros Hall. split.
      * rewrite (Hall b a); [lra|right; left|left].
      * intros p q Hp Hq. apply Hall; by right.
Qed.

Lemma gain_loss_zero (d : R) : gain_of d = 0 ∧ loss_of d = 0 ↔ d = 0.
Proof. unfold gain_of, loss_of. repeat case_decide; split; intros; lra. Qed.


Lemma calculate_rsi_only_losses (df : DataFrame) :
  (15 ≤ length df)%nat →
  Forall (λ d, d <= 0) (deltas (last_n 15 (prices df))) →
  Exists (λ d, d < 0) (deltas (last_n 15 (prices df))) →
  calculate_rsi df 14 = Ok (Some (Fin 0)).
Proof.
  intros Hlen Hall Hex. rewrite calculate_rsi_14, decide_False by lia.
  assert (length (prices df) = length df) as Hpl by apply length_map.
  rewrite avg_gain_local, avg_loss_local by lia.
  set (ds := deltas (last_n 15 (prices df))) in *.
  assert (length ds = 14%nat) as Hds.
  { unfold ds. rewrite deltas_length, last_n_length; lia. }
  assert (ds ≠ []) as Hne by (intros E; rewrite E in Hds; done).
  assert (Rmean (map gain_of ds) = 0) as ->.
  { apply Rmean_zero_iff; [by destruct ds| |].
    - apply Forall_fmap, Forall_forall. intros d _. cbn. unfold gain_of.
      case_decide; lra.
    - apply Forall_fmap. eapply Forall_impl; [done|]. intros d Hd. cbn.
      unfold gain_of. case_decide; lra. }
  assert (Rmean (map loss_of ds) ≠ 0) as Hl.
  { rewrite Rmean_zero_iff; [|by destruct ds|].
    - intros Hz. apply Exists_exists in Hex as (d & Hd & Hneg).
      rewrite Forall_fmap, Forall_forall in Hz. specialize (Hz d Hd). cbn in Hz.
      unfold loss_of in Hz. case_decide; lra.
    - apply Forall_fmap, Forall_forall. intros d _. cbn. unfold loss_of.
      case_decide; lra. }
  rewrite decide_False by done. do 3 f_equal.
  rewrite <-round2_R_0 at 2. f_equal. unfold Rdiv. rewrite Rmult_0_l. field.
Qed.




Lemma prices_shift (a : R) (df : DataFrame) :
  prices (shift a df) = map (λ p, p + a) (prices df).
Proof. unfold prices, shift. by rewrite !map_map. Qed.

Lemma tail_map {A B} (f : A → B) (l : list A) : tail (map f l) = map f (tail l).
Proof. by destruct l. Qed.

Lemma deltas_map_shift (a : R) (ps : list R) :
  deltas (map (λ p, p + a) ps) = deltas ps.
Proof.
  unfold deltas. rewrite tail_map. generalize (tail ps) as l1. intros l1.
  revert ps. induction l1 as [|x l1 IH]; intros [|q qs]; [done..|].
  cbn [map zip_with]. f_equal; [lra|]. apply IH.
Qed.

Lemma deltas_map_scale (c : R) (ps : list R) :
  deltas (map (Rmult c) ps) = map (Rmult c) (deltas ps).
Proof.
  unfold deltas. rewrite tail_map. generalize (tail ps) as l1. intros l1.
  revert ps. induction l1 as [|x l1 IH]; intros [|q qs]; [done..|].
  cbn [map zip_with]. f_equal; [lra|]. apply IH.
Qed.

Lemma Rmean_map_scale (c : R) (l : list R) :
  Rmean (map (Rmult c) l) = c * Rmean l.
Proof.
  unfold Rmean. rewrite length_map.
  assert (Rsum (map (Rmult c) l) = c * Rsum l) as ->.
  { unfold Rsum. induction l as [|x l IH]; cbn; [lra|]. rewrite IH. lra. }
  unfold Rdiv. ring.
Qed.

Lemma avg_gain_scale (c : R) (n : nat) (ps : list R) :
  0 < c → avg_gain n (map (Rmult c) ps) = c * avg_gain n ps.
Proof.
  intros Hc. unfold avg_gain. rewrite deltas_map_scale, <-Rmean_map_scale.
  f_equal. rewrite <-(last_n_map (Rmult c)), !map_map. f_equal. apply map_ext.
  intros d. unfold gain_of. repeat case_decide; nra.
Qed.

Lemma avg_loss_scale (c : R) (n : nat) (ps : list R) :
  0 < c → avg_loss n (map (Rmult c) ps) = c * avg_loss n ps.
Proof.
  intros Hc. unfold avg_loss. rewrite deltas_map_scale, <-Rmean_map_scale.
  f_equal. rewrite <-(last_n_map (Rmult c)), !map_map. f_equal. apply map_ext.
  intros d. unfold loss_of. repeat case_decide; nra.
Qed.

Lemma scale_length (c : R) (df : DataFrame) : length (scale c df) = length df.
Proof. apply length_map. Qed.

Lemma shift_length (a : R) (df : DataFrame) : length (shift a df) = length df.
Proof. apply length_map. Qed.



(** ** More on the volatility *)

Lemma pct_change_scale (c : R) (l1 l2 : list R) :
  0 < c →
  zip_with (λ cur prev, cur ⊘ prev ⊖ Fin 1)
           (map Fin (map (Rmult c) l1)) (map Fin (map (Rmult c) l2))
  = zip_with (λ cur prev, cur ⊘ prev ⊖ Fin 1) (map Fin l1) (map Fin l2).
Proof.
  intros Hc. revert l2. induction l1 as [|a l1 IH]; intros [|b l2]; [done..|].
  cbn [map zip_with]. f_equal; [|apply IH].
  cbn [Float.div]. destruct (decide (b = 0)) as [->|Hb].
  - rewrite decide_True by lra. by repeat case_decide; try nra.
  - rewrite decide_False by nra. do 2 f_equal. field. lra.
Qed.



(** ** Storing a report *)

Section store_properties.

Variable accepts : float → bool.

Implicit Types (db : analytics_table) (key : string * string * string * Z).

Lemma overlay_refl db : overlay (λ _, None) db db.
Proof. by intros key. Qed.

Lemma overlay_trans w1 w2 db db1 db2 :
  overlay w1 db db1 → overlay w2 db1 db2 →
  overlay (λ key, from_option Some (w1 key) (w2 key)) db db2.
Proof.
  intros H1 H2 key. rewrite H2, H1. by destruct (w2 key).
Qed.

Lemma overlay_ext w w' db db' :
  (∀ key, w key = w' key) → overlay w db db' → overlay w' db db'.
Proof. intros Hw H key. by rewrite <-Hw. Qed.

Lemma insert_or_replace_spec db sym name v period ts :
  match insert_or_replace accepts db sym name v period ts with
  | Some db' =>
      accepts v = true
      ∧ overlay (λ key, if decide (key = (sym, name, period, ts))
                        then Some v else None) db db'
  | None => accepts v = false
  end.
Proof.
  unfold insert_or_replace. destruct (accepts v); [|done]. split; [done|].
  intros key. case_decide as Hk.
  - subst key. by rewrite lookup_insert_eq.
  - by rewrite lookup_insert_ne.
Qed.

Lemma store_items_spec (sym period : string) (ts : Z)
    (items : list (string * option float)) :
  NoDup items.*1 →
  ∀ db,
    match store_items accepts sym period ts items db with
    | Some db' =>
        (∀ n v, (n, Some v) ∈ items → accepts v = true)
        ∧ overlay (items_writes sym period ts (list_to_map items)) db db'
    | None => ∃ n v, (n, Some v) ∈ items ∧ accepts v = false
    end.
Proof.
  induction items as [|[k x] rest IH]; intros Hnd db.
  { cbn. split; [by intros n v ?%elem_of_nil|]. by intros [[[s n] p] t]; cbn;
      rewrite lookup_empty; case_decide. }
  apply NoDup_cons in Hnd as [Hk Hnd]. specialize (IH Hnd).
  assert ((list_to_map rest : gmap string (option float)) !! k = None) as Hnone
    by by apply not_elem_of_list_to_map_1.
  cbn [store_items list_to_map foldr]. destruct x as [v|].
  - pose proof (insert_or_replace_spec db sym k v period ts) as Hins.
    destruct (insert_or_replace accepts db sym k v period ts) as [db1|];
      cbn [mbind option_bind].
    2:{ exists k, v. split; [left|done]. }
    destruct Hins as [Hacc Hov]. specialize (IH db1).
    destruct (store_items accepts sym period ts rest db1) as [db'|].
    2:{ destruct IH as (n & w & Hin & Hw). exists n, w. split; [by right|done]. }
    destruct IH as [Hall Hov']. split.
    { intros n w [[= -> ->]|Hin]%elem_of_cons; [done|by eapply Hall]. }
    intros [[[s n] p] t]. rewrite Hov', Hov. unfold items_writes.
    destruct (decide (s = sym ∧ p = period ∧ t = ts)) as [(-> & -> & ->)|Hne].
    + destruct (decide (n = k)) as [->|Hnk].
      * rewrite lookup_insert_eq, Hnone. cbn. by rewrite decide_True.
      * rewrite lookup_insert_ne by done.
        destruct (mjoin _); [done|]. cbn. rewrite decide_False; [done|congruence].
    + cbn. rewrite decide_False; [done|]. intros [= -> -> -> ->]. tauto.
  - specialize (IH db).
    destruct (store_items accepts sym period ts rest db) as [db'|].
    2:{ destruct IH as (n & w & Hin & Hw). exists n, w. split; [by right|done]. }
    destruct IH as [Hall Hov']. split.
    { intros n w [[= _ ?]|Hin]%elem_of_cons; by eapply Hall. }
    intros [[[s n] p] t]. rewrite Hov'. unfold items_writes.
    case_decide; [|done].
    destruct (decide (n = k)) as [->|Hnk].
    + by rewrite lookup_insert_eq, Hnone.
    + by rewrite lookup_insert_ne.
Qed.

Lemma store_dict_spec (sym period : string) (ts : Z)
    (m : gmap string (option float)) db :
  match store_items accepts sym period ts (map_to_list m) db with
  | Some db' =>
      (∀ n v, m !! n = Some (Some v) → accepts v = true)
      ∧ overlay (items_writes sym period ts m) db db'
  | None => ∃ n v, m !! n = Some (Some v) ∧ accepts v = false
  end.
Proof.
  pose proof (store_items_spec sym period ts (map_to_list m)
                (NoDup_fst_map_to_list m) db) as H.
  rewrite list_to_map_to_list in H.
  destruct (store_items _ _ _ _ _ _) as [db'|].
  - destruct H as [Hall Hov]. split; [|done].
    intros n v Hn. apply (Hall n). by apply elem_of_map_to_list.
  - destruct H as (n & v & Hin%elem_of_map_to_list & Hv). by exists n, v.
Qed.

Lemma stored_value_ma (a : analytics) (n : string) :
  stored_value a (symbol a, n, "30d", timestamp a) = mjoin (moving_averages a !! n).
Proof. cbn. repeat case_decide; try done; exfalso; intuition congruence. Qed.

Lemma stored_value_change (a : analytics) (n : string) :
  stored_value a (symbol a, n, "current", timestamp a)
  = mjoin (percentage_changes a !! n).
Proof. cbn. repeat case_decide; try done; exfalso; intuition congruence. Qed.

Lemma stored_value_volatility (a : analytics) :
  stored_value a (symbol a, "volatility", "7d", timestamp a)
  = Some (volatility_7d a).
Proof. cbn. repeat case_decide; try done; exfalso; intuition congruence. Qed.

Lemma stored_value_rsi (a : analytics) :
  stored_value a (symbol a, "rsi", "14d", timestamp a) = rsi_14 a.
Proof. cbn. repeat case_decide; try done; exfalso; intuition congruence. Qed.

(** The body of the [try] block either ends with every value of the report
    written over the table, all of them accepted, or raises on a value that
    is not accepted. *)
Lemma store_analytics_try_spec (a : analytics) db :
  match store_analytics_try accepts a db with
  | Some db' =>
      (∀ key v, stored_value a key = Some v → accepts v = true)
      ∧ overlay (stored_value a) db db'
  | None => ∃ key v, stored_value a key = Some v ∧ accepts v = false
  end.
Proof.
  unfold store_analytics_try. cbv zeta.
  pose proof (store_dict_spec (symbol a) "30d" (timestamp a)
                (moving_averages a) db) as H1.
  destruct (store_items accepts _ "30d" _ _ db) as [db1|]; cbn [mbind option_bind].
  2:{ destruct H1 as (n & v & Hn & Hv).
      exists (symbol a, n, "30d", timestamp a), v. split; [|done].
      by rewrite stored_value_ma, Hn. }
  destruct H1 as [Hall1 Hov1].
  pose proof (store_dict_spec (symbol a) "current" (timestamp a)
                (percentage_changes a) db1) as H2.
  destruct (store_items accepts _ "current" _ _ db1) as [db2|];
    cbn [mbind option_bind].
  2:{ destruct H2 as (n & v & Hn & Hv).
      exists (symbol a, n, "current", timestamp a), v. split; [|done].
      by rewrite stored_value_change, Hn. }
  destruct H2 as [Hall2 Hov2].
  pose proof (insert_or_replace_spec db2 (symbol a) "volatility"
                (volatility_7d a) "7d" (timestamp a)) as H3.
  destruct (insert_or_replace accepts db2 _ "volatility" _ _ _) as [db3|];
    cbn [mbind option_bind].
  2:{ exists (symbol a, "volatility", "7d", timestamp a), (volatility_7d a).
      split; [|done]. apply stored_value_volatility. }
  destruct H3 as [Hacc3 Hov3].
  assert (match (match rsi_14 a with
                 | Some v => insert_or_replace accepts db3 (symbol a) "rsi" v
                               "14d" (timestamp a)
                 | None => Some db3
                 end) with
          | Some db' =>
              (∀ v, rsi_14 a = Some v → accepts v = true)
              ∧ overlay (λ key, if decide (key = (symbol a, "rsi", "14d", timestamp a))
                                then rsi_14 a else None) db3 db'
          | None => ∃ v, rsi_14 a = Some v ∧ accepts v = false
          end) as H4.
  { destruct (rsi_14 a) as [v|].
    - pose proof (insert_or_replace_spec db3 (symbol a) "rsi" v "14d"
                    (timestamp a)) as H.
      destruct (insert_or_replace _ _ _ _ _ _ _); [|by exists v].
      destruct H as [Hv Hov]. split; [by intros ? [= <-]|done].
    - split; [done|]. intros key. by case_decide. }
  destruct (match rsi_14 a with Some _ => _ | None => _ end) as [db4|];
    cbn [mbind option_bind].
  2:{ destruct H4 as (v & Hr & Hv).
      exists (symbol a, "rsi", "14d", timestamp a), v. split; [|done].
      by rewrite stored_value_rsi. }
  destruct H4 as [Hall4 Hov4]. split.
  - intros [[[s n] p] t] v. cbn. repeat case_decide; try done.
    + destruct (moving_averages a !! n) as [[w|]|] eqn:E; cbn; try done.
      intros [= <-]. by eapply Hall1.
    + destruct (percentage_changes a !! n) as [[w|]|] eqn:E; cbn; try done.
      intros [= <-]. by eapply Hall2.
    + by intros [= <-].
    + apply Hall4.
  - eapply overlay_ext;
      [|exact (overlay_trans _ _ _ _ _
                 (overlay_trans _ _ _ _ _ (overlay_trans _ _ _ _ _ Hov1 Hov2) Hov3)
                 Hov4)].
    intros [[[s n] p] t]. cbn.
    repeat case_decide; destruct_and?; simplify_eq; cbn;
      try done; try (by exfalso; intuition congruence);
      try (by destruct (mjoin _)); try (by destruct (rsi_14 a)).
Qed.

(** X13.  [store_analytics] writes all of a report or nothing.  When the
    table accepts every value the report holds for it, each of them is
    afterwards the value of its row and every other row is as before; when
    it refuses one of them, the table is left as it was. *)
Theorem store_analytics_all_or_nothing (a : analytics) db :
  ((∀ key v, stored_value a key = Some v → accepts v = true) →
   ∀ key, store_analytics accepts (Some a) db !! key
          = from_option Some (db !! key) (stored_value a key))
  ∧ ((∃ key v, stored_value a key = Some v ∧ accepts v = false) →
     store_analytics accepts (Some a) db = db).
Proof.
  cbn [store_analytics]. pose proof (store_analytics_try_spec a db) as H.
  destruct (store_analytics_try accepts a db) as [db'|].
  - destruct H as [Hall Hov]. split; [by intros _|].
    intros (key & v & Hk & Hv). rewrite (Hall key v Hk) in Hv. done.
  - destruct H as (key & v & Hk & Hv). split; [|done].
    intros Hall. rewrite (Hall key v Hk) in Hv. done.
Qed.

(** X14.  Storing a report a second time changes nothing. *)
Theorem store_analytics_idempotent (report : option analytics) db :
  store_analytics accepts report (store_analytics accepts report db)
  = store_analytics accepts report db.
Proof.
  destruct report as [a|]; [|done]. cbn [store_analytics].
  pose proof (store_analytics_try_spec a db) as H.
  destruct (store_analytics_try accepts a db) as [db'|] eqn:E.
  - destruct H as [Hall Hov].
    pose proof (store_analytics_try_spec a db') as H'.
    destruct (store_analytics_try accepts a db') as [db''|].
    + destruct H' as [_ Hov']. apply map_eq. intros key.
      rewrite Hov', Hov. by destruct (stored_value a key).
    + done.
  - by rewrite E.
Qed.

(** X15.  [store_analytics] touches the rows of the report's symbol at the
    report's timestamp only, and among them neither the extrema nor the
    30-day volatility: a row that the report holds no value for is as
    before. *)
Theorem store_analytics_frame (a : analytics) db key :
  stored_value a key = None →
  store_analytics accepts (Some a) db !! key = db !! key.
Proof.
  intros Hk. cbn [store_analytics].
  pose proof (store_analytics_try_spec a db) as H.
  destruct (store_analytics_try accepts a db) as [db'|]; [|done].
  destruct H as [_ Hov]. by rewrite Hov, Hk.
Qed.

End store_properties.

Lemma store_analytics_all_or_nothing_witness :
  store_analytics accepts_not_nan (Some report_nan_volatility) ∅ = ∅.
Proof.
  apply (proj2 (store_analytics_all_or_nothing accepts_not_nan
                  report_nan_volatility ∅)).
  exists ("BTC", "volatility", "7d", 3600%Z), NaN. split; reflexivity.
Defined.

Lemma store_analytics_frame_witness :
  store_analytics accepts_not_nan (Some report_nan_volatility) ∅
    !! ("ETH", "rsi", "14d", 3600%Z)
  = (∅ : analytics_table) !! ("ETH", "rsi", "14d", 3600%Z).
Proof.
  apply (store_analytics_frame accepts_not_nan report_nan_volatility ∅).
  reflexivity.
Defined.

(** X16.  From a frame of exactly two observations, with no price zero,
    the report has the volatility NaN; when the table refuses NaN, storing
    that report stores nothing of it. *)
Theorem store_report_of_two_rows (accepts : float → bool) (sym : string)
    (df : DataFrame) (clk : clock) (n : nat) (report : option analytics)
    (reads : nat) (db : analytics_table) :
  length df = 2%nat → Forall (λ p, p ≠ 0) (prices df) →
  accepts NaN = false →
  generate_comprehensive_analytics sym df clk n = (Ok report, reads) →
  store_analytics accepts report db = db.
Proof.
  intros Hlen Hnz Hnan Hrun.
  destruct (generate_comprehensive_analytics_ok sym df clk n)
    as (price & mas & rsi & cap & vol & Hok); [by destruct df|].
  rewrite Hok in Hrun. injection Hrun as <- _. cbn [store_analytics].
  pose proof (store_analytics_try_spec accepts
                (report_at sym df price mas rsi cap vol clk n) db) as H.
  destruct (store_analytics_try _ _ _) as [db'|]; [|done].
  destruct H as [Hall _].
  specialize (Hall _ _ (stored_value_volatility _)).
  cbn [volatility_7d report_at] in Hall.
  rewrite calculate_volatility_two in Hall by done. congruence.
Qed.

Lemma store_report_of_two_rows_witness :
  ∃ report reads,
    generate_comprehensive_analytics "BTC" two_hourly (frozen hour) 0%nat
    = (Ok report, reads)
    ∧ store_analytics accepts_not_nan report ∅ = ∅.
Proof.
  destruct (generate_comprehensive_analytics_ok "BTC" two_hourly (frozen hour) 0%nat)
    as (price & mas & rsi & cap & vol & Hok); [done|].
  eexists _, _. split; [exact Hok|].
  eapply (store_report_of_two_rows accepts_not_nan "BTC" two_hourly (frozen hour)
            0%nat); [reflexivity| |reflexivity|exact Hok].
  unfold two_hourly, prices. cbn. repeat constructor; lra.
Defined.

(** ** Updating all the symbols *)

Section update_properties.

Variable accepts : float → bool.
Variable get_price_data : string → DataFrame.

Implicit Types (db : analytics_table).

Lemma report_symbol (sym : string) (df : DataFrame) (clk : clock) (n : nat)
    (a : analytics) (reads : nat) :
  generate_comprehensive_analytics sym df clk n = (Ok (Some a), reads) →
  symbol a = sym.
Proof.
  intros Hrun. destruct df as [|r df]; [done|].
  destruct (generate_comprehensive_analytics_ok sym (r :: df) clk n)
    as (price & mas & rsi & cap & vol & Hok); [done|].
  rewrite Hok in Hrun. by injection Hrun as <- _.
Qed.

Lemma generate_comprehensive_analytics_total (sym : string) (df : DataFrame)
    (clk : clock) (n : nat) :
  ∃ report reads,
    generate_comprehensive_analytics sym df clk n = (Ok report, reads).
Proof.
  destruct df as [|r df]; [by eexists _, _|].
  destruct (generate_comprehensive_analytics_ok sym (r :: df) clk n)
    as (price & mas & rsi & cap & vol & Hok); [done|].
  rewrite Hok. by eexists _, _.
Qed.

Lemma store_analytics_other_symbol (sym : string) (df : DataFrame)
    (clk : clock) (n : nat) (report : option analytics) (reads : nat)
    db (s name p : string) (t : Z) :
  generate_comprehensive_analytics sym df clk n = (Ok report, reads) →
  s ≠ sym →
  store_analytics accepts report db !! (s, name, p, t) = db !! (s, name, p, t).
Proof.
  intros Hrun Hs. destruct report as [a|]; [|done].
  apply report_symbol in Hrun.
  pose proof (store_analytics_try_spec accepts a db) as H.
  cbn [store_analytics].
  destruct (store_analytics_try accepts a db) as [db'|]; [|done].
  destruct H as [_ Hov]. rewrite Hov. cbn.
  rewrite decide_False; [done|]. intros [-> _]. congruence.
Qed.

(** The value of a row after [store_analytics] depends on the table
    through the value of that row only. *)
Lemma store_analytics_pointwise (report : option analytics) db1 db2 key :
  db1 !! key = db2 !! key →
  store_analytics accepts report db1 !! key
  = store_analytics accepts report db2 !! key.
Proof.
  intros Hk. destruct report as [a|]; [|done]. cbn [store_analytics].
  pose proof (store_analytics_try_spec accepts a db1) as H1.
  pose proof (store_analytics_try_spec accepts a db2) as H2.
  destruct (store_analytics_try accepts a db1) as [db1'|],
           (store_analytics_try accepts a db2) as [db2'|].
  - destruct H1 as [_ Hov1], H2 as [_ Hov2]. by rewrite Hov1, Hov2, Hk.
  - destruct H1 as [Hall _], H2 as (k & v & Hs & Hv).
    rewrite (Hall k v Hs) in Hv. done.
  - destruct H2 as [Hall _], H1 as (k & v & Hs & Hv).
    rewrite (Hall k v Hs) in Hv. done.
  - done.
Qed.

Lemma update_all_analytics_other (symbols : list string) db (clk : clock)
    (n : nat) :
  ∃ final reads,
    update_all_analytics accepts get_price_data symbols db clk n
    = (Ok final, reads)
    ∧ ∀ s name p t, s ∉ symbols → final !! (s, name, p, t) = db !! (s, name, p, t).
Proof.
  revert db n. induction symbols as [|s0 rest IH]; intros db n.
  { by eexists _, _. }
  cbn [update_all_analytics].
  destruct (generate_comprehensive_analytics_total s0 (get_price_data s0) clk n)
    as (report & n' & Hrun).
  rewrite Hrun.
  destruct (IH (store_analytics accepts report db) n') as (final & reads & Hfin & Hoth).
  exists final, reads. split; [done|].
  intros s name p t Hs. apply not_elem_of_cons in Hs as [Hne Hs].
  rewrite Hoth by done. by eapply store_analytics_other_symbol.
Qed.

(** X17.  [update_all_analytics] raises nothing and handles the symbols
    independently of each other: the rows of a listed symbol end as if the
    report of that symbol alone had been stored into the table it started
    from (so a report that cannot be stored leaves the other symbols'
    reports stored), and the rows of the symbols that are not listed are as
    before. *)
Theorem update_all_analytics_per_symbol (symbols : list string) db
    (clk : clock) (n : nat) :
  NoDup symbols →
  ∃ final reads,
    update_all_analytics accepts get_price_data symbols db clk n
    = (Ok final, reads)
    ∧ (∀ sym, sym ∈ symbols →
         ∃ k report reads',
           generate_comprehensive_analytics sym (get_price_data sym) clk k
           = (Ok report, reads')
           ∧ ∀ name p t,
               final !! (sym, name, p, t)
               = store_analytics accepts report db !! (sym, name, p, t))
    ∧ (∀ s name p t, s ∉ symbols → final !! (s, name, p, t) = db !! (s, name, p, t)).
Proof.
  intros Hnd. revert db n. induction Hnd as [|s0 rest Hs0 Hnd IH]; intros db n.
  { eexists _, _. split; [done|]. split; [|done].
    by intros sym ?%elem_of_nil. }
  destruct (update_all_analytics_other (s0 :: rest) db clk n)
    as (final & reads & Hfin & Hoth).
  exists final, reads. split; [done|]. split; [|done].
  cbn [update_all_analytics] in Hfin.
  destruct (generate_comprehensive_analytics_total s0 (get_price_data s0) clk n)
    as (report0 & n' & Hrun).
  rewrite Hrun in Hfin.
  intros sym [->|Hin]%elem_of_cons.
  - exists n, report0, n'. split; [done|]. intros name p t.
    destruct (update_all_analytics_other rest (store_analytics accepts report0 db)
                clk n') as (final' & reads' & Hfin' & Hoth').
    rewrite Hfin in Hfin'. injection Hfin' as <- _. by apply Hoth'.
  - destruct (IH (store_analytics accepts report0 db) n')
      as (final' & reads' & Hfin' & Hper & _).
    rewrite Hfin in Hfin'. injection Hfin' as <- _.
    destruct (Hper sym Hin) as (k & report & r' & Hgen & Heq).
    exists k, report, r'. split; [done|]. intros name p t. rewrite Heq.
    apply store_analytics_pointwise.
    eapply store_analytics_other_symbol; [done|]. intros ->. done.
Qed.

End update_properties.

Lemma update_all_analytics_per_symbol_witness :
  ∃ final reads,
    update_all_analytics accepts_not_nan
      (λ sym, if decide (sym = "BTC") then two_hourly else closes8)
      ["BTC"; "ETH"] ∅ (frozen (7 * day)) 0%nat
    = (Ok final, reads)
    ∧ (∀ sym, sym ∈ ["BTC"; "ETH"] →
         ∃ k report reads',
           generate_comprehensive_analytics sym
             (if decide (sym = "BTC") then two_hourly else closes8)
             (frozen (7 * day)) k
           = (Ok report, reads')
           ∧ ∀ name p t,
               final !! (sym, name, p, t)
               = store_analytics accepts_not_nan report ∅ !! (sym, name, p, t))
    ∧ (∀ s name p t, s ∉ ["BTC"; "ETH"] →
         final !! (s, name, p, t) = (∅ : analytics_table) !! (s, name, p, t)).
Proof.
  apply (update_all_analytics_per_symbol accepts_not_nan
           (λ sym, if decide (sym = "BTC") then two_hourly else closes8)
           ["BTC"; "ETH"] ∅ (frozen (7 * day)) 0%nat).
  apply NoDup_cons. split; [by intros ?%list_elem_of_singleton|].
  apply NoDup_singleton.
Defined.

(** ** The counters of the scheduler *)

(** X18.  After any sequence of runs, [failed_attempts] (the
    [total_failures] of [get_status]) is the number of failed runs since
    the last successful one, not the number of all failures, and
    [consecutive_failures] is that number modulo 5, hence always below
    [max_failures]. *)
Theorem scheduler_counters (outcomes : list fetch_outcome) :
  failed_attempts (scheduler_after outcomes)
  = Z.of_nat (failures_since_success outcomes)
  ∧ consecutive_failures (scheduler_after outcomes)
    = (Z.of_nat (failures_since_success outcomes) mod 5)%Z
  ∧ max_failures (scheduler_after outcomes) = 5%Z
  ∧ (0 ≤ consecutive_failures (scheduler_after outcomes) < 5)%Z.
Proof.
  unfold scheduler_after, failures_since_success.
  induction outcomes as [|o outcomes IH] using rev_ind; [done|].
  rewrite foldl_app, rev_app_distr. cbn [foldl rev app].
  destruct IH as (Hfa & Hcf & Hmax & Hb).
  set (s := foldl _ scheduler_init outcomes) in *.
  set (k := leading_failures (rev outcomes)) in *.
  destruct o; cbn [fetch_data_with_retry handle_failure leading_failures
                   failed_attempts consecutive_failures max_failures].
  - done.
  - rewrite Hmax, Hfa, Hcf, Nat2Z.inj_succ.
    case_decide; split_and!; try done; Z.div_mod_to_equations; lia.
  - rewrite Hmax, Hfa, Hcf, Nat2Z.inj_succ.
    case_decide; split_and!; try done; Z.div_mod_to_equations; lia.
Qed.

(** ** Storing the fetched prices *)

Lemma priced_cons (coin_id : string) (data : coin_data)
    (rest : list (string * coin_data)) :
  priced ((coin_id, data) :: rest)
  = if decide (is_Some (data !! "usd")) then (coin_id, data) :: priced rest
    else priced rest.
Proof. unfold priced. by rewrite filter_cons. Qed.

(** The loop either raises on a [null] price, or appends one row for each
    coin that has a price, in the order of the payload. *)
Lemma store_coins_spec (timestamp : Z) (items : list (string * coin_data))
    (tbl : list price_record) :
  match store_coins timestamp items tbl with
  | Some tbl' =>
      Forall (λ item, item.2 !! "usd" ≠ Some None) items
      ∧ ∃ new,
          tbl' = tbl ++ new
          ∧ Forall2 (λ r item,
                       pr_name r = item.1
                       ∧ pr_symbol r = symbol_of item.1
                       ∧ index (pr_row r) = (timestamp * 1000000)%Z
                       ∧ item.2 !! "usd" = Some (Some (price_usd (pr_row r))))
                    new (priced items)
  | None => Exists (λ item, item.2 !! "usd" = Some None) items
  end.
Proof.
  revert tbl. induction items as [|[coin_id data] rest IH]; intros tbl.
  { cbn. split; [done|]. exists []. by rewrite app_nil_r. }
  cbn [store_coins]. rewrite priced_cons. unfold store_coin.
  destruct (data !! "usd") as [[price|]|] eqn:Husd; cbn [mbind option_bind].
  - match goal with |- context [store_coins _ _ (tbl ++ [?r])] =>
      set (row := r); specialize (IH (tbl ++ [row])) end.
    destruct (store_coins timestamp rest (tbl ++ [row])) as [tbl'|].
    + destruct IH as (Hall & new & -> & Hnew). split.
      { constructor; [cbn; congruence|done]. }
      exists (row :: new). rewrite <-app_assoc. split; [done|].
      rewrite decide_True by by eexists. by constructor.
    + by apply Exists_cons_tl.
  - by apply Exists_cons_hd.
  - specialize (IH tbl). destruct (store_coins timestamp rest tbl) as [tbl'|].
    + destruct IH as (Hall & new & -> & Hnew). split.
      { constructor; [cbn; congruence|done]. }
      exists new. split; [done|]. rewrite decide_False; [done|]. by intros [].
    + by apply Exists_cons_tl.
Qed.

(** X19.  [store_crypto_data] raises nothing, never changes or removes a
    row that is in the table, and stores all of a payload or nothing: it
    returns [True] exactly when the payload is there, is not empty and has
    no [null] price, and after [False] the table is as before. *)
Theorem store_crypto_data_all_or_nothing
    (data : option (list (string * coin_data))) (tbl : list price_record)
    (clk : clock) (n : nat) :
  ∃ ok tbl' reads,
    store_crypto_data data tbl clk n = (Ok (ok, tbl'), reads)
    ∧ tbl `prefix_of` tbl'
    ∧ (ok = false → tbl' = tbl)
    ∧ (ok = true
       ↔ ∃ items, data = Some items ∧ items ≠ []
                  ∧ Forall (λ item, item.2 !! "usd" ≠ Some None) items).
Proof.
  destruct data as [[|item items]|].
  - exists false, tbl, n. split_and!; try done. split; [done|].
    by intros (items & [= <-] & ? & _).
  - unfold store_crypto_data. rewrite M_bind_run. cbn [datetime_now].
    pose proof (store_coins_spec (strftime_second (clk n)) (item :: items) tbl) as H.
    destruct (store_coins _ (item :: items) tbl) as [tbl'|].
    + destruct H as (Hall & new & -> & _).
      exists true, (tbl ++ new), (S n). split_and!; try done.
      * by apply prefix_app_r.
      * split; [|done]. intros _. by exists (item :: items).
    + exists false, tbl, (S n). split_and!; try done. split; [done|].
      intros (items' & [= <-] & _ & Hall).
      apply Exists_exists in H as (x & Hx & Hnull).
      rewrite Forall_forall in Hall. by destruct (Hall x Hx).
  - exists false, tbl, n. split_and!; try done. split; [done|].
    by intros (items & [=] & _).
Qed.


(** X21.  A payload that is not empty and in which no coin has a ['usd']
    entry is reported as stored ([True]) although no row is added. *)
Theorem store_crypto_data_nothing_priced (items : list (string * coin_data))
    (tbl : list price_record) (clk : clock) (n : nat) :
  items ≠ [] → Forall (λ item, item.2 !! "usd" = None) items →
  store_crypto_data (Some items) tbl clk n = (Ok (true, tbl), S n).
Proof.
  intros Hne Hall. destruct items as [|item items]; [done|].
  unfold store_crypto_data. rewrite M_bind_run. cbn [datetime_now].
  assert (∀ l, Forall (λ item : string * coin_data, item.2 !! "usd" = None) l →
            store_coins (strftime_second (clk n)) l tbl = Some tbl) as Hloop.
  { induction 1 as [|[c d] l Hd Hl IH]; [done|].
    cbn [store_coins]. unfold store_coin. cbn in Hd. by rewrite Hd. }
  by rewrite Hloop.
Qed.

Lemma store_crypto_data_sample :
  ∃ tbl',
    store_crypto_data (Some payload_sample) [] (frozen hour) 0%nat
    = (Ok (true, tbl'), 1%nat).
Proof. eexists. vm_compute. reflexivity. Qed.


Lemma store_crypto_data_nothing_priced_witness :
  store_crypto_data (Some payload_error) [] (frozen hour) 0%nat
  = (Ok (true, []), 1%nat).
Proof.
  apply (store_crypto_data_nothing_priced payload_error [] (frozen hour) 0%nat).
  - done.
  - repeat constructor.
Defined.

(** ** What the dashboard shows of a report *)

(** The entries of a report are the results of the computations on the
    frame. *)
Lemma report_fields (sym : string) (df : DataFrame) (clk : clock) (n : nat)
    (a : analytics) (reads : nat) :
  generate_comprehensive_analytics sym df clk n = (Ok (Some a), reads) →
  calculate_rsi df 14 = Ok (rsi_14 a)
  ∧ volatility_7d a = calculate_volatility df 7
  ∧ calculate_moving_averages df default_windows = Ok (moving_averages a)
  ∧ min_max_7d a = min_max_entry df 7 (clk (n + 5)%nat).
Proof.
  intros Hrun. destruct df as [|r df]; [done|].
  destruct (last (prices (r :: df))) as [p|] eqn:Hlast.
  2:{ by apply last_None in Hlast. }
  destruct (calculate_moving_averages_default_ok (r :: df)) as [m Hm].
  destruct (iloc_last_ok (map market_cap (r :: df))) as [c Hc]; [done|].
  destruct (iloc_last_ok (map volume_24h (r :: df))) as [v Hv]; [done|].
  rewrite (generate_comprehensive_analytics_run sym (r :: df) p m _ c v clk n
             Hlast Hm (calculate_rsi_14 _) Hc Hv) in Hrun.
  injection Hrun as <- _. cbn [rsi_14 volatility_7d moving_averages min_max_7d report_at].
  by rewrite calculate_rsi_14.
Qed.



(** X23.  The dashboard shows the volatility of a report unless it is
    zero: for a series of one observation no volatility line is written,
    and for a series of two observations, with no price zero, the line
    shows NaN. *)
Theorem dashboard_volatility_line (sym : string) (df : DataFrame) (clk : clock)
    (n : nat) (a : analytics) (reads : nat) :
  generate_comprehensive_analytics sym df clk n = (Ok (Some a), reads) →
  ((length df < 2)%nat → ∀ v, VolatilityLine v ∉ technical_indicators a)
  ∧ (length df = 2%nat → Forall (λ p, p ≠ 0) (prices df) →
     VolatilityLine NaN ∈ technical_indicators a).
Proof.
  intros Hrun. apply report_fields in Hrun as (_ & Hvol & _).
  unfold technical_indicators. rewrite Hvol. split.
  - intros Hlen v Hin. unfold calculate_volatility in Hin.
    rewrite decide_True in Hin by done. cbn [truthy] in Hin.
    rewrite bool_decide_false in Hin by (intros H; by apply H).
    apply elem_of_app in Hin as [Hin|Hin].
    + destruct (rsi_14 a) as [x|]; [|by apply elem_of_nil in Hin].
      destruct (truthy x); [|by apply elem_of_nil in Hin].
      by apply list_elem_of_singleton in Hin.
    + cbn [app] in Hin. destruct (min_max_7d a); [|by apply elem_of_nil in Hin].
      apply elem_of_cons in Hin as [?|Hin]; [done|].
      by apply list_elem_of_singleton in Hin.
  - intros Hlen Hnz. rewrite calculate_volatility_two by done. cbn [truthy].
    apply elem_of_app. right. left.
Qed.

Lemma dashboard_volatility_line_witness :
  ∃ a,
    generate_comprehensive_analytics "BTC" two_hourly (frozen hour) 0%nat
    = (Ok (Some a), 7%nat)
    ∧ VolatilityLine NaN ∈ technical_indicators a.
Proof.
  destruct (generate_comprehensive_analytics_ok "BTC" two_hourly (frozen hour) 0%nat)
    as (price & mas & rsi & cap & vol & Hok); [done|].
  eexists. split; [exact Hok|].
  apply (proj2 (dashboard_volatility_line "BTC" two_hourly (frozen hour)
                  0%nat _ _ Hok)); [reflexivity|].
  unfold two_hourly, prices. cbn. repeat constructor; lra.
Defined.
